(** * AIDM command-line client: session lifecycle and interaction protocol

    A shallow embedding of [ai_dm_app/cli_client.py] (class [DnDClient] and
    the chat loop of [main]).  The methods are state transformers over the
    client object and a world made of a millisecond clock, the log of HTTP
    requests issued, and the text written to the terminal.  The remote
    service is an oracle that answers the n-th request. *)

From Stdlib Require Import ZArith NArith List String Ascii Bool Lia.
From Equations Require Import Equations.
Import ListNotations.

Local Open Scope string_scope.
Local Open Scope Z_scope.
Set Warnings "-register-all".

(** ** Python values *)

(** The values a JSON body decodes to ([None], [bool], [int], [str], [list],
    [dict]); the client's three identity fields hold such values too.  A dict
    is an association list in which the first binding of a key is the live
    one.  JSON numbers with a fraction are left out: the client neither
    computes with numbers nor compares them. *)
Inductive pyval : Type :=
| PNone
| PBool (b : bool)
| PInt (z : Z)
| PStr (s : string)
| PList (l : list pyval)
| PDict (d : list (string * pyval)).

(** Exceptions that the modelled code can meet.  A [RequestException]
    remembers what the transport saw. *)
Inductive reply : Type :=
| ConnError
| Response (status : Z) (body : option pyval).

Inductive exn : Type :=
| RequestException (cause : reply)
| KeyError (key : string)
| TypeError
| AttributeError
| ValueError
| EOFError
| KeyboardInterrupt.

Inductive outcome (A : Type) : Type :=
| Ret (a : A)
| Raise (e : exn).
Arguments Ret {A} a.
Arguments Raise {A} e.

(** Python truth value, as used by [not x], [all([...])] and [if x:]. *)
Definition truthy (v : pyval) : bool :=
  match v with
  | PNone => false
  | PBool b => b
  | PInt z => negb (z =? 0)
  | PStr s => negb (s =? "")%string
  | PList l => match l with [] => false | _ => true end
  | PDict d => match d with [] => false | _ => true end
  end.

(** [all(xs)] *)
Definition py_all (xs : list pyval) : bool := forallb truthy xs.

Fixpoint assoc (key : string) (d : list (string * pyval)) : option pyval :=
  match d with
  | [] => None
  | (k, v) :: d' => if (k =? key)%string then Some v else assoc key d'
  end.

(** [obj.get(key, default)]: only a dict has the method. *)
Definition py_get (obj : pyval) (key : string) (default : pyval) : outcome pyval :=
  match obj with
  | PDict d => Ret (match assoc key d with Some v => v | None => default end)
  | _ => Raise AttributeError
  end.

(** [obj[key]] with a string key. *)
Definition py_subscript (obj : pyval) (key : string) : outcome pyval :=
  match obj with
  | PDict d => match assoc key d with Some v => Ret v | None => Raise (KeyError key) end
  | _ => Raise TypeError
  end.

(** ** Strings *)

(** A [string] stands for the Python [str] with the same characters, one
    character per code point; the code points are those below 256. *)

Definition LF : ascii := ascii_of_nat 10.

Definition nl : string := String LF "".

(** The marker the service uses for a line break. *)
Definition br : string := "<br>".

(** [s.startswith(pat)] *)
Fixpoint starts_with (pat s : string) : bool :=
  match pat, s with
  | EmptyString, _ => true
  | String a pat', String b s' => (a =? b)%char && starts_with pat' s'
  | String _ _, EmptyString => false
  end.

(** [s.replace("<br>", "\n")]: scan from the left; where the marker starts,
    emit a newline and jump over its four characters, otherwise copy one
    character. *)
Fixpoint replace_br (s : string) : string :=
  match s with
  | EmptyString => EmptyString
  | String c rest =>
      match rest with
      | String _ (String _ (String _ rest')) =>
          if starts_with br s then String LF (replace_br rest')
          else String c (replace_br rest)
      | _ => String c (replace_br rest)
      end
  end.

(** [v.replace("<br>", "\n")]: only a [str] has the method. *)
Definition py_replace_br (v : pyval) : outcome pyval :=
  match v with
  | PStr s => Ret (PStr (replace_br s))
  | _ => Raise AttributeError
  end.

(** The white space [str.strip()] removes, i.e. the characters for which
    [str.isspace()] holds: U+0009 to U+000D, U+001C to U+0020, U+0085 (next
    line) and U+00A0 (no-break space). *)
Definition is_space (c : ascii) : bool :=
  let n := nat_of_ascii c in
  (((9 <=? n) && (n <=? 13)) || ((28 <=? n) && (n <=? 32))
   || (n =? 133) || (n =? 160))%nat.

Fixpoint lstrip (s : string) : string :=
  match s with
  | String c s' => if is_space c then lstrip s' else s
  | EmptyString => EmptyString
  end.

Fixpoint rstrip (s : string) : string :=
  match s with
  | EmptyString => EmptyString
  | String c s' =>
      match rstrip s' with
      | EmptyString => if is_space c then EmptyString else String c EmptyString
      | r => String c r
      end
  end.

Definition strip (s : string) : string := rstrip (lstrip s).

(** [str.lower()], character by character: the capitals are A to Z and,
    above ASCII, U+00C0 to U+00DE without the multiplication sign U+00D7;
    each has its small letter 32 places further on. *)
Definition lower_char (c : ascii) : ascii :=
  let n := nat_of_ascii c in
  if (((65 <=? n) && (n <=? 90))
      || ((192 <=? n) && (n <=? 222) && negb (n =? 215)))%nat
  then ascii_of_nat (n + 32) else c.

Fixpoint lower (s : string) : string :=
  match s with
  | EmptyString => EmptyString
  | String c s' => String (lower_char c) (lower s')
  end.

(** [x in ["exit", "quit"]] *)
Definition in_exit_words (x : string) : bool :=
  ((x =? "exit") || (x =? "quit"))%string.

(** ** Requests, the world and the client object *)

Inductive verb : Type := GET | POST.

(** The resource a request names, i.e. what the f-string appends to
    [server_url]. *)
Inductive path : Type :=
| Root
| CampaignSessions (campaign_id : Z)
| SessionsStart
| SessionInteract (session_id : pyval)
| SessionEnd (session_id : pyval).

Record request : Type := mkRequest {
  req_verb : verb;
  req_base : string;
  req_path : path;
  req_json : option pyval;
  req_key : string            (* the X-API-Key header *)
}.

(** What [print] and the prompt of [input] write: the pieces of an
    f-string, in order. *)
Inductive frag : Type :=
| Txt (s : string)
| Num (z : Z)
| Val (v : pyval)
| Exc (e : exn).

Inductive output : Type :=
| Print (line : list frag)
| Prompt (text : string).

Record world : Type := mkWorld {
  now : Z;                    (* wall clock, in milliseconds *)
  calls : list request;       (* HTTP requests issued so far, oldest first *)
  out : list output;          (* terminal output so far, oldest first *)
  ended : nat                 (* spy: how often end_session was entered *)
}.

Record client : Type := mkClient {
  campaign_id : pyval;
  world_id : pyval;
  session_id : pyval;
  server_url : string;
  api_key : string
}.

Definition DEFAULT_SERVER_URL : string := "http://127.0.0.1:5000".

(** [DnDClient.__init__]; [env_key] is [os.getenv('DND_API_KEY')]. *)
Definition init (url key env_key : option string) : outcome client :=
  let url' := match url with
              | Some u => if (u =? "")%string then DEFAULT_SERVER_URL else u
              | None => DEFAULT_SERVER_URL
              end in
  let key' := match key with
              | Some k => if (k =? "")%string then env_key else Some k
              | None => env_key
              end in
  match key' with
  | Some k => if (k =? "")%string then Raise ValueError
              else Ret (mkClient PNone PNone PNone url' k)
  | None => Raise ValueError
  end.

(** ** A state and exception monad for method bodies *)

Definition M (A : Type) : Type := client -> world -> outcome A * client * world.

Definition ret {A} (a : A) : M A := fun c w => (Ret a, c, w).

Definition raise {A} (e : exn) : M A := fun c w => (Raise e, c, w).

Definition bind {A B} (m : M A) (k : A -> M B) : M B :=
  fun c w =>
    match m c w with
    | (Ret a, c', w') => k a c' w'
    | (Raise e, c', w') => (Raise e, c', w')
    end.

Definition lift {A} (o : outcome A) : M A := fun c w => (o, c, w).

Declare Scope py_scope.
Delimit Scope py_scope with py.
Notation "x <- m ;; k" := (bind m (fun x => k))
  (at level 100, m at next level, right associativity) : py_scope.
Notation "m ;; k" := (bind m (fun _ => k))
  (at level 100, right associativity) : py_scope.
Local Open Scope py_scope.

(** [try: body  except requests.RequestException as e: handler] *)
Definition try_request {A} (body : M A) (handler : exn -> M A) : M A :=
  fun c w =>
    match body c w with
    | (Raise (RequestException r), c', w') => handler (RequestException r) c' w'
    | res => res
    end.

Definition self : M client := fun c w => (Ret c, c, w).

Definition set_campaign_id (v : pyval) : M unit :=
  fun c w => (Ret tt, mkClient v (world_id c) (session_id c) (server_url c) (api_key c), w).

Definition set_world_id (v : pyval) : M unit :=
  fun c w => (Ret tt, mkClient (campaign_id c) v (session_id c) (server_url c) (api_key c), w).

Definition set_session_id (v : pyval) : M unit :=
  fun c w => (Ret tt, mkClient (campaign_id c) (world_id c) v (server_url c) (api_key c), w).

Definition print (line : list frag) : M unit :=
  fun c w => (Ret tt, c, mkWorld (now w) (calls w) (out w ++ [Print line]) (ended w)).

Definition prompt (text : string) : M unit :=
  fun c w => (Ret tt, c, mkWorld (now w) (calls w) (out w ++ [Prompt text]) (ended w)).

(** Seconds on the millisecond clock. *)
Definition ms (seconds : Z) : Z := 1000 * seconds.
Arguments ms : simpl never.

(** [time.time()], in milliseconds. *)
Definition time_time : M Z := fun c w => (Ret (now w), c, w).

(** [time.sleep(seconds)] *)
Definition time_sleep (seconds : Z) : M unit :=
  fun c w => (Ret tt, c, mkWorld (now w + ms seconds) (calls w) (out w) (ended w)).

(** The three parts of what a call leaves behind. *)
Definition result_of {A} (r : outcome A * client * world) : outcome A := fst (fst r).
Definition client_of {A} (r : outcome A * client * world) : client := snd (fst r).
Definition world_of {A} (r : outcome A * client * world) : world := snd r.

(** The spy counts one entry of [end_session]. *)
Definition spy_end : M unit :=
  fun c w => (Ret tt, c, mkWorld (now w) (calls w) (out w) (S (ended w))).

(** ** The transport: [requests] *)

(** A [requests.Response]: the status line and the body, [None] when the
    body is not decodable JSON. *)
Record response : Type := mkResponse {
  status_code : Z;
  body : option pyval
}.

(** The statuses [raise_for_status] rejects: client and server errors. *)
Definition http_error (status : Z) : bool := (400 <=? status) && (status <? 600).

Section Client.

(** The remote service: the reply to the n-th request of the run and the
    milliseconds the exchange takes.  [ConnError] stands for every failure
    below HTTP (refused connection, DNS, time-out). *)
Variable remote : nat -> request -> reply * N.

(** [requests.get] and [requests.post] with [headers=self.headers]: a
    [Response] for every status, a [RequestException] when no response
    arrives. *)
Definition send (v : verb) (p : path) (js : option pyval) : M response :=
  fun c w =>
    let rq := mkRequest v (server_url c) p js (api_key c) in
    let w' := mkWorld (now w + Z.of_N (snd (remote (List.length (calls w)) rq)))
                      (calls w ++ [rq]) (out w) (ended w) in
    match fst (remote (List.length (calls w)) rq) with
    | ConnError => (Raise (RequestException ConnError), c, w')
    | Response st b => (Ret (mkResponse st b), c, w')
    end.

Definition requests_get (p : path) : M response := send GET p None.

Definition requests_post (p : path) (js : option pyval) : M response := send POST p js.

(** [response.raise_for_status()]: an [HTTPError] for a 4xx or 5xx status. *)
Definition raise_for_status (r : response) : M unit :=
  if http_error (status_code r)
  then raise (RequestException (Response (status_code r) (body r)))
  else ret tt.

(** [response.json()]: [requests.exceptions.JSONDecodeError], itself a
    [RequestException], when the body does not decode. *)
Definition json (r : response) : M pyval :=
  match body r with
  | Some v => ret v
  | None => raise (RequestException (Response (status_code r) None))
  end.

(** ** [DnDClient] *)

Definition check_server : M bool :=
  try_request
    (_ <- requests_get Root ;;
     ret true)
    (fun _ => ret false).

Definition list_sessions (campaign_id : Z) : M pyval :=
  try_request
    (response <- requests_get (CampaignSessions campaign_id) ;;
     raise_for_status response ;;
     sessions <- json response ;;
     ret sessions)
    (fun e =>
       print [Txt "Error listing sessions: "; Exc e] ;;
       ret (PList [])).

Definition inspect {A} (a : A) : {b : A | a = b} := exist _ a eq_refl.

(** The body of [while time.time() - start_time < timeout] in
    [wait_for_server].  Every round that does not return sleeps five
    seconds, so the time left to the deadline shrinks. *)
Equations? wait_loop (start_time timeout : Z) (c : client) (w : world)
  : outcome bool * client * world
  by wf (Z.to_nat (start_time + ms timeout - now w)) lt :=
wait_loop start_time timeout c w with Z_lt_dec (now w - start_time) (ms timeout) := {
  | right _ :=
      (print [Txt nl; Txt "Server connection timed out after "; Num timeout; Txt " seconds."] ;;
       ret false) c w
  | left _ with inspect (check_server c w) := {
      | exist _ (Ret true, c1, w1) _ :=
          (print [Txt "Server is running!"] ;;
           ret true) c1 w1
      | exist _ (Ret false, c1, w1) _ :=
          let paused :=
            (print [Txt "Server not available at "; Txt (server_url c1)] ;;
             print [Txt "Retrying in 5 seconds..."] ;;
             time_sleep 5) c1 w1 in
          wait_loop start_time timeout (client_of paused) (world_of paused)
      | exist _ (Raise e, c1, w1) _ := (Raise e, c1, w1) } }.
Proof.
  assert (now w <= now w1).
  { revert e. unfold check_server, try_request, requests_get, send, bind, ret.
    destruct (fst (remote _ _)); intros E; inversion E; subst; cbn [now]; lia. }
  unfold ms in *. lia.
Qed.

Definition wait_for_server (timeout : Z) : M bool :=
  print [Txt "Checking server connection..."] ;;
  start_time <- time_time ;;
  wait_loop start_time timeout.

(** The guard shared by [load_session] and [start_session]:
    [if not self.check_server(): if not self.wait_for_server(): return False];
    [true] when the method goes on. *)
Definition reachable_or_wait : M bool :=
  up <- check_server ;;
  if negb up then wait_for_server 30 else ret true.

Definition load_session (session_id campaign_id world_id : Z) : M bool :=
  go_on <- reachable_or_wait ;;
  if negb go_on then ret false
  else
    set_campaign_id (PInt campaign_id) ;;
    set_world_id (PInt world_id) ;;
    set_session_id (PInt session_id) ;;
    ret true.

Definition start_session (campaign_id world_id : Z) : M bool :=
  go_on <- reachable_or_wait ;;
  if negb go_on then ret false
  else
    set_campaign_id (PInt campaign_id) ;;
    set_world_id (PInt world_id) ;;
    try_request
      (response <- requests_post SessionsStart
                     (Some (PDict [("campaign_id", PInt campaign_id)])) ;;
       raise_for_status response ;;
       data <- json response ;;
       sid <- lift (py_subscript data "session_id") ;;
       set_session_id sid ;;
       ret true)
      (fun e =>
         print [Txt "Error starting session: "; Exc e] ;;
         print [Txt nl; Txt "Please verify that:"] ;;
         print [Txt "1. The campaign ID exists in the database"] ;;
         print [Txt "2. The server is running properly"] ;;
         print [Txt "3. Your API key is correct"] ;;
         ret false).

Definition send_message (user_input : string) : M pyval :=
  me <- self ;;
  if negb (py_all [campaign_id me; world_id me; session_id me]) then
    print [Txt "Session not initialized!"] ;;
    ret PNone
  else
    try_request
      (response <- requests_post (SessionInteract (session_id me))
                     (Some (PDict [("user_input", PStr user_input);
                                   ("campaign_id", campaign_id me);
                                   ("world_id", world_id me)])) ;;
       raise_for_status response ;;
       data <- json response ;;
       text <- lift (py_get data "dm_response" (PStr "")) ;;
       lift (py_replace_br text))
      (fun e =>
         print [Txt "Error sending message: "; Exc e] ;;
         up <- check_server ;;
         (if negb up then print [Txt "Server connection lost!"] else ret tt) ;;
         ret PNone).

Definition end_session_body : M pyval :=
  me <- self ;;
  if negb (truthy (session_id me)) then ret PNone
  else
    try_request
      (response <- requests_post (SessionEnd (session_id me)) None ;;
       raise_for_status response ;;
       data <- json response ;;
       lift (py_get data "recap" PNone))
      (fun e =>
         print [Txt "Error ending session: "; Exc e] ;;
         ret PNone).

(** [end_session] as the spy sees it: the entry is counted, then the body
    runs. *)
Definition end_session : M pyval :=
  spy_end ;;
  end_session_body.

(** ** The chat loop of [main] *)

(** What [input] meets on the terminal: a line, or Ctrl-C.  When the list
    runs out the terminal is closed and [input] raises [EOFError]. *)
Inductive key : Type :=
| Line (text : string)
| CtrlC.

(** [while True: ...] of [main], reading from [stdin]; returns what it left
    unread. *)
Fixpoint chat_loop (stdin : list key) : M (list key) :=
  match stdin with
  | [] =>
      prompt (nl ++ "You: ") ;;
      print [Txt nl; Txt "Unexpected error: "; Exc EOFError] ;;
      print [Txt "Ending session..."] ;;
      ret []
  | CtrlC :: rest =>
      prompt (nl ++ "You: ") ;;
      print [Txt nl; Txt "Received interrupt signal. Ending session..."] ;;
      ret rest
  | Line text :: rest =>
      prompt (nl ++ "You: ") ;;
      let user_input := strip text in
      if in_exit_words (lower user_input) then ret rest
      else
        fun c w =>
          match send_message user_input c w with
          | (Ret response, c', w') =>
              ((if truthy response
                then print [Txt nl; Txt "DM: "; Val response]
                else ret tt) ;;
               chat_loop rest) c' w'
          | (Raise KeyboardInterrupt, c', w') =>
              (print [Txt nl; Txt "Received interrupt signal. Ending session..."] ;;
               ret rest) c' w'
          | (Raise e, c', w') =>
              (print [Txt nl; Txt "Unexpected error: "; Exc e] ;;
               print [Txt "Ending session..."] ;;
               ret rest) c' w'
          end
  end.



(** ** Sequences of calls on one controller *)

Inductive op : Type :=
| CheckServer
| WaitForServer (timeout : Z)
| ListSessions (campaign_id : Z)
| LoadSession (session_id campaign_id world_id : Z)
| StartSession (campaign_id world_id : Z)
| SendMessage (user_input : string)
| EndSession.

Definition forget {A} (m : M A) : client -> world -> client * world :=
  fun c w => (client_of (m c w), world_of (m c w)).

(** One call; a caller that goes on after an exception sees the object as
    the call left it. *)
Definition run_op (o : op) : client -> world -> client * world :=
  match o with
  | CheckServer => forget check_server
  | WaitForServer t => forget (wait_for_server t)
  | ListSessions cid => forget (list_sessions cid)
  | LoadSession sid cid wid => forget (load_session sid cid wid)
  | StartSession cid wid => forget (start_session cid wid)
  | SendMessage s => forget (send_message s)
  | EndSession => forget end_session
  end.

Fixpoint run_ops (os : list op) (c : client) (w : world) : client * world :=
  match os with
  | [] => (c, w)
  | o :: os' => let '(c', w') := run_op o c w in run_ops os' c' w'
  end.

End Client.

(** ** Set and unset identities *)

Definition is_set (v : pyval) : Prop := v <> PNone.

Definition fully_set (c : client) : Prop :=
  is_set (campaign_id c) /\ is_set (world_id c) /\ is_set (session_id c).

Definition fully_unset (c : client) : Prop :=
  campaign_id c = PNone /\ world_id c = PNone /\ session_id c = PNone.

Definition world0 : world := mkWorld 0 [] [] 0.

Definition client0 : client := mkClient PNone PNone PNone DEFAULT_SERVER_URL "secret".

(** ** Vocabulary of the statements *)

(** The reply to the request issued in world [w], and the world after it. *)
Definition answer (remote : nat -> request -> reply * N) (w : world) (rq : request) : reply :=
  fst (remote (List.length (calls w)) rq).

Definition after_call (remote : nat -> request -> reply * N) (w : world) (rq : request) : world :=
  mkWorld (now w + Z.of_N (snd (remote (List.length (calls w)) rq)))
          (calls w ++ [rq]) (out w) (ended w).

(** The requests the methods build. *)
Definition probe (c : client) : request :=
  mkRequest GET (server_url c) Root None (api_key c).

Definition list_request (c : client) (cid : Z) : request :=
  mkRequest GET (server_url c) (CampaignSessions cid) None (api_key c).

Definition start_request (c : client) (cid : Z) : request :=
  mkRequest POST (server_url c) SessionsStart
    (Some (PDict [("campaign_id", PInt cid)])) (api_key c).

Definition interact_request (c : client) (user_input : string) : request :=
  mkRequest POST (server_url c) (SessionInteract (session_id c))
    (Some (PDict [("user_input", PStr user_input);
                  ("campaign_id", campaign_id c);
                  ("world_id", world_id c)])) (api_key c).

Definition end_request (c : client) : request :=
  mkRequest POST (server_url c) (SessionEnd (session_id c)) None (api_key c).

(** The states a call may relate: [R c w c' w'] reads "from object [c] in
    world [w] the call ends with object [c'] in world [w']". *)
Definition respects (R : client -> world -> client -> world -> Prop)
  {A} (m : M A) : Prop :=
  forall c w, R c w (client_of (m c w)) (world_of (m c w)).

(** The object and the spy counter are as before. *)
Definition untouched (c : client) (w : world) (c' : client) (w' : world) : Prop :=
  c' = c /\ ended w' = ended w.

(** The world once the prompt of the chat loop is written. *)
Definition prompted (w : world) : world :=
  mkWorld (now w) (calls w) (out w ++ [Prompt (nl ++ "You: ")]) (ended w).

(** The world once the spy has counted an entry of [end_session]. *)
Definition spied (w : world) : world :=
  mkWorld (now w) (calls w) (out w) (S (ended w)).

(** Never partially set in the sense the code keeps: nothing is set, or
    campaign and world are. *)
Definition identity_ok (c : client) : Prop :=
  fully_unset c \/ (is_set (campaign_id c) /\ is_set (world_id c)).

(** A service that is up but refuses to create sessions. *)
Definition refusing_service : nat -> request -> reply * N :=
  fun _ rq =>
    match req_verb rq with
    | GET => (Response 200 (Some (PDict [])), 0%N)
    | POST => (Response 404 (Some (PDict [])), 0%N)
    end.

(** A service that is down for the first request, up afterwards, and
    refuses to create sessions. *)
Definition late_refusing_service : nat -> request -> reply * N :=
  fun n rq =>
    match req_verb rq with
    | GET => if (n =? 0)%nat then (ConnError, 0%N)
             else (Response 200 (Some (PDict [])), 0%N)
    | POST => (Response 404 (Some (PDict [])), 0%N)
    end.

(** A service that ends sessions with a recap. *)
Definition recap_service : nat -> request -> reply * N :=
  fun _ _ => (Response 200 (Some (PDict [("recap", PStr "The party rests.")])), 0%N).

(** A service that is down; each attempt to connect fails at once, or
    after two seconds. *)
Definition dead_service : nat -> request -> reply * N :=
  fun _ _ => (ConnError, 0%N).

Definition dead2s : nat -> request -> reply * N :=
  fun _ _ => (ConnError, 2000%N).

(** The guard of [send_message]: all three identity fields are truthy. *)
Definition active (c : client) : Prop :=
  py_all [campaign_id c; world_id c; session_id c] = true.

(** A transport failure as [requests] reports one, i.e. as a
    [RequestException]: no response, a status that [raise_for_status]
    rejects, or a body that is not JSON. *)
Definition transport_failure (r : reply) : Prop :=
  match r with
  | ConnError => True
  | Response status body => http_error status = true \/ body = None
  end.

(** The transport failure of the specification's error taxonomy: network
    unreachable, a status that is not 2xx, or a malformed response. *)
Definition spec_transport_failure (r : reply) : Prop :=
  match r with
  | ConnError => True
  | Response status body => ~ (200 <= status < 300) \/ body = None
  end.

(** A service that answers every request with status 500 and an empty
    JSON object, at once. *)
Definition failing_service : nat -> request -> reply * N :=
  fun _ _ => (Response 500 (Some (PDict [])), 0%N).

(** A service whose narrator answers every request with two lines. *)
Definition narrator_service : nat -> request -> reply * N :=
  fun _ _ => (Response 200 (Some (PDict [("dm_response", PStr "line1<br>line2")])), 0%N).

(** A service that answers every request with an empty JSON object. *)
Definition mute_service : nat -> request -> reply * N :=
  fun _ _ => (Response 200 (Some (PDict [])), 0%N).

(** A service that answers every request with an empty JSON list. *)
Definition list_service : nat -> request -> reply * N :=
  fun _ _ => (Response 200 (Some (PList [])), 0%N).

(** A controller with a session loaded. *)
Definition client7 : client := mkClient (PInt 1) (PInt 1) (PInt 7) DEFAULT_SERVER_URL "secret".

(** A service with one stored session. *)
Definition one_session : pyval :=
  PList [PDict [("session_id", PInt 42); ("created_at", PStr "2024-01-01T00:00:00Z")]].

Definition listing_service : nat -> request -> reply * N :=
  fun _ _ => (Response 200 (Some one_session), 0%N).

(** The same listing under status 300 (multiple choices). *)
Definition redirecting_service : nat -> request -> reply * N :=
  fun _ _ => (Response 300 (Some one_session), 0%N).

(** ** Vocabulary of the further properties *)

(** A request goes to the address of [c] and carries its key. *)
Definition carries (c : client) (rq : request) : Prop :=
  req_base rq = server_url c /\ req_key rq = api_key c.

(** Address and key are as before, and what was sent meanwhile went to that
    address with that key. *)
Definition sealed (c : client) (w : world) (c' : client) (w' : world) : Prop :=
  server_url c' = server_url c /\
  api_key c' = api_key c /\
  exists more, calls w' = (calls w ++ more)%list /\ Forall (carries c) more.

(** The reply to the request with index [n]. *)
Definition reply_at (remote : nat -> request -> reply * N) (n : nat) (rq : request) : reply :=
  fst (remote n rq).

Fixpoint all_space (s : string) : bool :=
  match s with
  | EmptyString => true
  | String c s' => is_space c && all_space s'
  end.


(** A controller whose session id is zero. *)
Definition client_zero : client :=
  mkClient (PInt 1) (PInt 1) (PInt 0) DEFAULT_SERVER_URL "secret".

(** A service whose narrator answers with JSON null. *)
Definition null_service : nat -> request -> reply * N :=
  fun _ _ => (Response 200 (Some (PDict [("dm_response", PNone)])), 0%N).

(** A service that creates session 12. *)
Definition creating_service : nat -> request -> reply * N :=
  fun _ _ => (Response 201 (Some (PDict [("session_id", PInt 12)])), 0%N).


(** * Properties *)

(** ** Frame rules

    A relation between the state before and after a call that is reflexive
    and transitive, and that printing, time passing and network traffic
    respect, is respected by every method that does not assign to [self]. *)
Create HintDb frame.

Section Frame.
Variable remote : nat -> request -> reply * N.
Variable R : client -> world -> client -> world -> Prop.
Hypothesis R_refl : forall c w, R c w c w.
Hypothesis R_trans : forall c1 w1 c2 w2 c3 w3,
  R c1 w1 c2 w2 -> R c2 w2 c3 w3 -> R c1 w1 c3 w3.
Hypothesis R_out : forall c w o,
  R c w c (mkWorld (now w) (calls w) (out w ++ [o]) (ended w)).
Hypothesis R_time : forall c w d, 0 <= d ->
  R c w c (mkWorld (now w + d) (calls w) (out w) (ended w)).
Hypothesis R_net : forall c w v p js d, 0 <= d ->
  R c w c (mkWorld (now w + d)
             (calls w ++ [mkRequest v (server_url c) p js (api_key c)])
             (out w) (ended w)).
Hypothesis R_assign : forall c w ca wo se,
  R c w (mkClient ca wo se (server_url c) (api_key c)) w.
Hypothesis R_spy : forall c w,
  R c w c (mkWorld (now w) (calls w) (out w) (S (ended w))).

Lemma respects_ret {A} (a : A) : respects R (ret a).
Proof. intros c w. apply R_refl. Qed.

Lemma respects_raise {A} (e : exn) : respects R (@raise A e).
Proof. intros c w. apply R_refl. Qed.

Lemma respects_lift {A} (o : outcome A) : respects R (lift o).
Proof. intros c w. apply R_refl. Qed.

Lemma respects_self : respects R self.
Proof. intros c w. apply R_refl. Qed.

Lemma respects_bind {A B} (m : M A) (k : A -> M B) :
  respects R m -> (forall a, respects R (k a)) -> respects R (bind m k).
Proof.
  intros Hm Hk c w. unfold bind.
  pose proof (Hm c w) as H.
  destruct (m c w) as [[[a | e] c'] w']; cbn in *.
  - eapply R_trans; [exact H | apply Hk].
  - exact H.
Qed.

Lemma respects_try {A} (m : M A) (h : exn -> M A) :
  respects R m -> (forall e, respects R (h e)) -> respects R (try_request m h).
Proof.
  intros Hm Hh c w. unfold try_request.
  pose proof (Hm c w) as H.
  destruct (m c w) as [[[a | e] c'] w']; cbn in *; [exact H |].
  destruct e; try exact H.
  eapply R_trans; [exact H | apply Hh].
Qed.

Lemma respects_if {A} (b : bool) (m1 m2 : M A) :
  respects R m1 -> respects R m2 -> respects R (if b then m1 else m2).
Proof. destruct b; auto. Qed.

Lemma respects_print line : respects R (print line).
Proof. intros c w. apply R_out. Qed.

Lemma respects_prompt text : respects R (prompt text).
Proof. intros c w. apply R_out. Qed.

Lemma respects_time_time : respects R time_time.
Proof. intros c w. apply R_refl. Qed.

Lemma respects_sleep5 : respects R (time_sleep 5).
Proof. intros c w. apply R_time. unfold ms. lia. Qed.

Lemma respects_send v p js : respects R (send remote v p js).
Proof.
  intros c w. unfold send.
  destruct (fst (remote _ _)); cbn; apply R_net; lia.
Qed.

Lemma respects_requests_get p : respects R (requests_get remote p).
Proof. apply respects_send. Qed.

Lemma respects_requests_post p js : respects R (requests_post remote p js).
Proof. apply respects_send. Qed.

Lemma respects_raise_for_status r : respects R (raise_for_status r).
Proof. unfold raise_for_status. apply respects_if; [apply respects_raise | apply respects_ret]. Qed.

Lemma respects_json r : respects R (json r).
Proof. unfold json. destruct (body r); [apply respects_ret | apply respects_raise]. Qed.

Hint Resolve respects_ret respects_raise respects_lift respects_self
  respects_print respects_prompt respects_time_time respects_sleep5
  respects_send respects_requests_get respects_requests_post
  respects_raise_for_status respects_json : frame.

Ltac frame :=
  repeat first
    [ solve [auto with frame]
    | apply respects_bind; [| intros ?]
    | apply respects_try; [| intros ?]
    | apply respects_if ].

Lemma respects_check_server : respects R (check_server remote).
Proof. unfold check_server. frame. Qed.

Hint Resolve respects_check_server : frame.

Lemma respects_list_sessions cid : respects R (list_sessions remote cid).
Proof. unfold list_sessions. frame. Qed.

Lemma respects_wait_loop start timeout : respects R (wait_loop remote start timeout).
Proof.
  intros c w. funelim (wait_loop remote start timeout c w).
  - apply (respects_bind (print _) (fun _ => ret false)); auto with frame.
  - pose proof (respects_check_server c w) as Hp. rewrite e in Hp. cbn in Hp.
    eapply R_trans; [exact Hp |].
    apply (respects_bind (print _) (fun _ => ret true)); auto with frame.
  - pose proof (respects_check_server c w) as Hp. rewrite e in Hp. cbn in Hp.
    eapply R_trans; [exact Hp |].
    match goal with
    | IH : R _ _ (client_of (wait_loop _ _ _ _ _)) _ |- _ =>
        eapply R_trans; [| exact IH]
    end.
    apply (respects_bind (print _)); [auto with frame | intros _].
    apply (respects_bind (print _)); auto with frame.
  - pose proof (respects_check_server c w) as Hp.
    match goal with E : check_server _ _ _ = _ |- _ => rewrite E in Hp end.
    exact Hp.
Qed.

Hint Resolve respects_wait_loop respects_list_sessions : frame.

Lemma respects_wait_for_server timeout : respects R (wait_for_server remote timeout).
Proof. unfold wait_for_server. frame. Qed.

Hint Resolve respects_wait_for_server : frame.

Lemma respects_reachable_or_wait : respects R (reachable_or_wait remote).
Proof. unfold reachable_or_wait. frame. Qed.

Lemma respects_send_message s : respects R (send_message remote s).
Proof. unfold send_message. frame. Qed.

Lemma respects_end_session_body : respects R (end_session_body remote).
Proof. unfold end_session_body. frame. Qed.

Lemma respects_set_campaign_id v : respects R (set_campaign_id v).
Proof. intros c w. apply R_assign. Qed.

Lemma respects_set_world_id v : respects R (set_world_id v).
Proof. intros c w. apply R_assign. Qed.

Lemma respects_set_session_id v : respects R (set_session_id v).
Proof. intros c w. apply R_assign. Qed.

Lemma respects_spy_end : respects R spy_end.
Proof. intros c w. apply R_spy. Qed.

Hint Resolve respects_set_campaign_id respects_set_world_id respects_set_session_id
  respects_spy_end respects_reachable_or_wait respects_end_session_body : frame.

Lemma respects_load_session sid cid wid : respects R (load_session remote sid cid wid).
Proof. unfold load_session. frame. Qed.

Lemma respects_start_session cid wid : respects R (start_session remote cid wid).
Proof. unfold start_session. frame. Qed.

Lemma respects_end_session : respects R (end_session remote).
Proof. unfold end_session. frame. Qed.

Lemma respects_run_op o c w :
  R c w (fst (run_op remote o c w)) (snd (run_op remote o c w)).
Proof.
  destruct o as [| t | cid | sid cid wid | cid wid | s |]; cbn [run_op forget fst snd].
  - apply respects_check_server.
  - apply respects_wait_for_server.
  - apply respects_list_sessions.
  - apply respects_load_session.
  - apply respects_start_session.
  - apply respects_send_message.
  - apply respects_end_session.
Qed.

Lemma respects_run_ops os c w :
  R c w (fst (run_ops remote os c w)) (snd (run_ops remote os c w)).
Proof.
  revert c w. induction os as [| o os IH]; intros c w; cbn [run_ops].
  - apply R_refl.
  - pose proof (respects_run_op o c w) as H1.
    destruct (run_op remote o c w) as [c1 w1]. cbn [fst snd] in H1.
    eapply R_trans; [exact H1 | apply IH].
Qed.

End Frame.

(** ** Availability prober *)

Lemma check_server_eq remote c w :
  check_server remote c w =
    (Ret (match answer remote w (probe c) with
          | ConnError => false
          | Response _ _ => true
          end),
     c, after_call remote w (probe c)).
Proof.
  unfold check_server, try_request, bind, requests_get, send, answer, after_call, probe, ret.
  destruct (fst (remote _ _)); reflexivity.
Qed.

(** C3, amended.  [check_server] issues exactly one request, a GET of the
    service root, never raises, and answers [False] exactly when no
    response arrives; any response, whatever its status or body, counts as
    reachable. *)
Theorem check_server_true_on_any_response remote c w :
  exists b,
    check_server remote c w = (Ret b, c, after_call remote w (probe c)) /\
    calls (after_call remote w (probe c)) = (calls w ++ [probe c])%list /\
    (b = false <-> answer remote w (probe c) = ConnError).
Proof.
  rewrite check_server_eq. eexists. split; [reflexivity |]. split; [reflexivity |].
  destruct (answer remote w (probe c)); split; intro H; congruence.
Qed.

(** C3, as stated, fails: a status 500 is a transport failure of the
    taxonomy, yet the probe reports the service reachable. *)
Lemma check_server_true_on_status_500 :
  transport_failure (answer failing_service world0 (probe client0)) /\
  result_of (check_server failing_service client0 world0) <> Ret false.
Proof.
  split.
  - left. reflexivity.
  - cbv. discriminate.
Qed.

(** ** Session directory *)

(** C8, amended.  [list_sessions] never raises: it issues one GET and
    returns the empty list when no response arrives, when the status is 4xx
    or 5xx and when the body is not JSON; for every other reply, whatever
    its status, it returns the decoded body untouched.  One stored session
    with id 42 comes back as a list of length one whose element has session
    id 42. *)
Theorem list_sessions_empty_on_failure remote c w cid :
  (exists v,
     list_sessions remote cid c w
       = (Ret v, c, world_of (list_sessions remote cid c w)) /\
     calls (world_of (list_sessions remote cid c w)) = (calls w ++ [list_request c cid])%list /\
     (transport_failure (answer remote w (list_request c cid)) -> v = PList []) /\
     (forall status sessions,
        answer remote w (list_request c cid) = Response status (Some sessions) ->
        http_error status = false -> v = sessions)) /\
  (exists s,
     result_of (list_sessions listing_service 5 c w) = Ret (PList [s]) /\
     py_subscript s "session_id" = Ret (PInt 42)).
Proof.
  split.
  - unfold list_sessions, try_request, bind, requests_get, send, raise_for_status,
      json, ret, raise, print, answer, list_request, transport_failure, world_of.
    destruct (fst (remote _ _)) as [| st b]; cbn.
    + eexists. repeat split; try reflexivity. intros; discriminate.
    + destruct (http_error st) eqn:E; cbn.
      * eexists. repeat split; try reflexivity.
        intros ? ? H F. inversion H; subst. congruence.
      * destruct b as [v |]; cbn.
        -- exists v. repeat split; try reflexivity.
           ++ intros [F | F]; discriminate.
           ++ intros ? ? H _. congruence.
        -- eexists. repeat split; try reflexivity. intros; discriminate.
  - eexists. split; reflexivity.
Qed.

(** C8, as stated, fails: a reply with status 300 is a transport failure
    of the taxonomy, yet [list_sessions] returns its body, which is not
    empty. *)
Lemma list_sessions_returns_body_of_status_300 :
  spec_transport_failure (answer redirecting_service world0 (list_request client0 5)) /\
  result_of (list_sessions redirecting_service 5 client0 world0) = Ret one_session /\
  one_session <> PList [].
Proof.
  split; [| split].
  - unfold answer, redirecting_service, spec_transport_failure. cbn [fst].
    left. lia.
  - reflexivity.
  - discriminate.
Qed.

Lemma list_sessions_empty_on_failure_witness :
  transport_failure (answer failing_service world0 (list_request client0 5)) /\
  result_of (list_sessions failing_service 5 client0 world0) = Ret (PList []).
Proof.
  destruct (list_sessions_empty_on_failure failing_service client0 world0 5)
    as [[v [E [_ [F _]]]] _].
  assert (T : transport_failure (answer failing_service world0 (list_request client0 5)))
    by (left; reflexivity).
  split; [exact T |].
  rewrite E. cbn. rewrite (F T). reflexivity.
Defined.

(** ** The line-break marker *)

Lemma starts_with_iff pat s :
  starts_with pat s = true <-> exists t, s = (pat ++ t)%string.
Proof.
  revert s. induction pat as [| a pat IH]; intros s; cbn.
  - split; [intros _; exists s; reflexivity | reflexivity].
  - destruct s as [| b s].
    + split; [discriminate | intros [t H]; discriminate].
    + split.
      * intros H. apply andb_prop in H as [H1 H2].
        apply Ascii.eqb_eq in H1. apply IH in H2 as [t ->]. subst. eauto.
      * intros [t H]. injection H as -> ->.
        rewrite Ascii.eqb_refl. cbn. apply IH. eauto.
Qed.

Lemma replace_br_marker t : replace_br (br ++ t) = (nl ++ replace_br t)%string.
Proof. reflexivity. Qed.

Lemma replace_br_copy c rest :
  starts_with br (String c rest) = false ->
  replace_br (String c rest) = String c (replace_br rest).
Proof.
  intros H. destruct rest as [| c2 [| c3 [| c4 rest']]]; try reflexivity.
  cbn [replace_br]. rewrite H. reflexivity.
Qed.

(** Induction along the scan of [replace_br]. *)
Lemma replace_br_scan_ind (P : string -> Prop) :
  P EmptyString ->
  (forall t, P t -> P (br ++ t)%string) ->
  (forall c rest, starts_with br (String c rest) = false -> P rest -> P (String c rest)) ->
  forall s, P s.
Proof.
  intros H0 Hm Hc s.
  assert (G : forall n s, (String.length s <= n)%nat -> P s).
  { clear s. induction n as [| n IH]; intros s Hn.
    - destruct s; [exact H0 | cbn in Hn; lia].
    - destruct s as [| c rest]; [exact H0 |].
      destruct (starts_with br (String c rest)) eqn:E.
      + apply starts_with_iff in E as [t E]. rewrite E. apply Hm. apply IH.
        rewrite E in Hn. cbn in Hn. lia.
      + apply Hc; [exact E |]. apply IH. cbn in Hn. lia. }
  apply (G (String.length s)). lia.
Qed.

Lemma append_assoc' (a b c : string) : ((a ++ b) ++ c = a ++ (b ++ c))%string.
Proof. induction a as [| x a IH]; cbn; [reflexivity | rewrite IH; reflexivity]. Qed.

Lemma starts_with_br_append c rest t :
  starts_with br (String c rest) = false ->
  starts_with br (String c rest ++ br ++ t) = false.
Proof.
  intros H. destruct (starts_with br (String c rest ++ br ++ t)) eqn:E; [| reflexivity].
  apply starts_with_iff in E as [u E].
  destruct rest as [| c2 [| c3 [| c4 rest']]]; cbn in E; try discriminate.
  injection E as -> -> -> -> _. cbn in H. discriminate.
Qed.

Lemma replace_br_split a b :
  replace_br (a ++ br ++ b) = (replace_br a ++ nl ++ replace_br b)%string.
Proof.
  induction a as [| t IH | c rest E IH] using replace_br_scan_ind.
  - reflexivity.
  - rewrite append_assoc'. rewrite !replace_br_marker, IH. reflexivity.
  - change (String c rest ++ br ++ b)%string with (String c (rest ++ br ++ b)).
    rewrite replace_br_copy.
    + rewrite IH, (replace_br_copy c rest E). reflexivity.
    + apply (starts_with_br_append c rest b E).
Qed.

Lemma replace_br_head s x t :
  replace_br s = String x t -> x <> LF ->
  exists rest, s = String x rest /\ replace_br rest = t.
Proof.
  intros H Hx. destruct s as [| c rest]; [discriminate |].
  destruct (starts_with br (String c rest)) eqn:E.
  - apply starts_with_iff in E as [u E]. rewrite E, replace_br_marker in H.
    injection H as H _. congruence.
  - rewrite (replace_br_copy c rest E) in H. injection H as -> <-. eauto.
Qed.

Lemma replace_br_no_marker s a b : replace_br s <> (a ++ br ++ b)%string.
Proof.
  revert a. induction s as [| t IH | c rest E IH] using replace_br_scan_ind; intros a H.
  - destruct a; discriminate.
  - rewrite replace_br_marker in H. destruct a as [| x a]; cbn in H.
    + discriminate.
    + injection H as _ H. exact (IH a H).
  - rewrite (replace_br_copy c rest E) in H. destruct a as [| x a]; cbn in H.
    + injection H as -> H.
      apply replace_br_head in H as [r2 [-> H]]; [| discriminate].
      apply replace_br_head in H as [r3 [-> H]]; [| discriminate].
      apply replace_br_head in H as [r4 [-> H]]; [| discriminate].
      cbn in E. discriminate.
    + injection H as _ H. exact (IH a H).
Qed.

Lemma replace_br_without_marker s :
  (forall a b, s <> (a ++ br ++ b)%string) -> replace_br s = s.
Proof.
  induction s as [| t IH | c rest E IH] using replace_br_scan_ind; intros H.
  - reflexivity.
  - exfalso. apply (H EmptyString t). reflexivity.
  - rewrite (replace_br_copy c rest E), IH; [reflexivity |].
    intros a b ->. apply (H (String c a) b). reflexivity.
Qed.

(** ** Interaction *)

Lemma send_message_rejected remote c w user_input :
  py_all [campaign_id c; world_id c; session_id c] = false ->
  send_message remote user_input c w =
    (Ret PNone, c,
     mkWorld (now w) (calls w) (out w ++ [Print [Txt "Session not initialized!"]]) (ended w)).
Proof.
  intros H. unfold send_message, bind, self. rewrite H. reflexivity.
Qed.

Lemma send_message_answered remote c w user_input status d :
  active c ->
  answer remote w (interact_request c user_input) = Response status (Some (PDict d)) ->
  http_error status = false ->
  send_message remote user_input c w =
    (match assoc "dm_response" d with
     | Some (PStr text) => Ret (PStr (replace_br text))
     | Some _ => Raise AttributeError
     | None => Ret (PStr "")
     end, c, after_call remote w (interact_request c user_input)).
Proof.
  unfold active, answer, interact_request. intros Ha Hr He.
  unfold send_message, bind, self. rewrite Ha. cbn [negb].
  unfold try_request, bind, requests_post, send. rewrite Hr.
  unfold raise_for_status. cbn [status_code]. rewrite He.
  unfold json, after_call. cbn [body]. unfold ret, lift, py_get, py_replace_br.
  destruct (assoc "dm_response" d) as [[] |]; reflexivity.
Qed.

(** C4.  If one of the three identity fields is unset, [send_message]
    returns [None] for every input, leaves the object alone and issues no
    request: the request log and the clock are untouched and only the
    notice is printed. *)
Theorem send_message_none_without_identity remote c w user_input :
  ~ fully_set c ->
  send_message remote user_input c w =
    (Ret PNone, c,
     mkWorld (now w) (calls w) (out w ++ [Print [Txt "Session not initialized!"]]) (ended w)).
Proof.
  intros H. apply send_message_rejected.
  unfold fully_set, is_set in H. unfold py_all. cbn [forallb].
  destruct (campaign_id c); try reflexivity;
    destruct (world_id c); try (rewrite andb_false_r; reflexivity);
      destruct (session_id c); try (rewrite !andb_false_r; reflexivity);
        exfalso; apply H; repeat split; discriminate.
Qed.

Lemma send_message_none_without_identity_witness :
  ~ fully_set client0 /\
  result_of (send_message narrator_service "look around" client0 world0) = Ret PNone /\
  calls (world_of (send_message narrator_service "look around" client0 world0)) = [].
Proof.
  assert (H : ~ fully_set client0) by (intros [H _]; apply H; reflexivity).
  split; [exact H |].
  rewrite (send_message_none_without_identity narrator_service client0 world0 "look around" H).
  split; reflexivity.
Defined.

(** C6.  With an active session and a successful interact call whose
    [dm_response] is the text [text], [send_message] returns
    [text.replace("<br>", "\n")]: the result holds no marker any more, each
    marker of [text] has become one newline, and
    ["line1<br>line2"] comes back as ["line1\nline2"]. *)
Theorem send_message_replaces_br remote c w user_input status d text :
  active c ->
  answer remote w (interact_request c user_input) = Response status (Some (PDict d)) ->
  http_error status = false ->
  assoc "dm_response" d = Some (PStr text) ->
  send_message remote user_input c w =
    (Ret (PStr (replace_br text)), c, after_call remote w (interact_request c user_input)) /\
  (forall a b, replace_br text <> (a ++ br ++ b)%string) /\
  (forall a b, text = (a ++ br ++ b)%string ->
     replace_br text = (replace_br a ++ nl ++ replace_br b)%string) /\
  ((forall a b, text <> (a ++ br ++ b)%string) -> replace_br text = text) /\
  replace_br "line1<br>line2" = ("line1" ++ nl ++ "line2")%string.
Proof.
  intros Ha Hr He Hd. split; [| split; [| split; [| split]]].
  - rewrite (send_message_answered remote c w user_input status d Ha Hr He), Hd.
    reflexivity.
  - intros a b. apply replace_br_no_marker.
  - intros a b ->. apply replace_br_split.
  - apply replace_br_without_marker.
  - reflexivity.
Qed.

Lemma send_message_replaces_br_witness :
  active client7 /\
  result_of (send_message narrator_service "look around" client7 world0)
    = Ret (PStr ("line1" ++ nl ++ "line2")).
Proof.
  assert (Ha : active client7) by reflexivity.
  split; [exact Ha |].
  destruct (send_message_replaces_br narrator_service client7 world0 "look around" 200
              [("dm_response", PStr "line1<br>line2")] "line1<br>line2"
              Ha eq_refl eq_refl eq_refl) as [E _].
  rewrite E. reflexivity.
Defined.

(** C10, amended.  With an active session, a successful interact call
    whose JSON is an object without [dm_response] makes [send_message]
    return the empty string, which is not [None], for every user input; in
    the chat loop a turn with such a reply finds the result falsy and goes
    to the next line having written nothing but its prompt. *)
Theorem send_message_empty_without_dm_response remote c w :
  active c ->
  (forall user_input status d,
     answer remote w (interact_request c user_input) = Response status (Some (PDict d)) ->
     http_error status = false ->
     assoc "dm_response" d = None ->
     send_message remote user_input c w =
       (Ret (PStr ""), c, after_call remote w (interact_request c user_input)) /\
     PStr "" <> PNone /\
     truthy (PStr "") = false) /\
  (forall text rest status d,
     in_exit_words (lower (strip text)) = false ->
     answer remote w (interact_request c (strip text)) = Response status (Some (PDict d)) ->
     http_error status = false ->
     assoc "dm_response" d = None ->
     chat_loop remote (Line text :: rest) c w =
       chat_loop remote rest c
         (after_call remote (prompted w) (interact_request c (strip text))) /\
     out (after_call remote (prompted w) (interact_request c (strip text))) =
       (out w ++ [Prompt (nl ++ "You: ")])%list).
Proof.
  intros Ha.
  assert (HS : forall w0 user_input status d,
             answer remote w0 (interact_request c user_input)
               = Response status (Some (PDict d)) ->
             http_error status = false ->
             assoc "dm_response" d = None ->
             send_message remote user_input c w0 =
               (Ret (PStr ""), c, after_call remote w0 (interact_request c user_input))).
  { intros w0 user_input status d H0 He Hd.
    rewrite (send_message_answered remote c w0 user_input status d Ha H0 He), Hd.
    reflexivity. }
  split.
  - intros user_input status d Hr He Hd.
    split; [exact (HS w user_input status d Hr He Hd) |].
    split; [discriminate | reflexivity].
  - intros text rest status d Hx Hr He Hd. split; [| reflexivity].
    cbn [chat_loop]. unfold bind at 1. unfold prompt at 1.
    rewrite Hx. fold (prompted w). rewrite (HS (prompted w) (strip text) status d Hr He Hd).
    reflexivity.
Qed.

Lemma send_message_empty_without_dm_response_witness :
  active client7 /\
  result_of (send_message mute_service "  look around " client7 world0) = Ret (PStr "") /\
  out (world_of (chat_loop mute_service [Line "look around"; Line "exit"] client7 world0))
    = [Prompt (nl ++ "You: "); Prompt (nl ++ "You: ")].
Proof.
  assert (Ha : active client7) by reflexivity.
  destruct (send_message_empty_without_dm_response mute_service client7 world0 Ha)
    as [HA HB].
  split; [exact Ha |]. split.
  - destruct (HA "  look around " 200 [] eq_refl eq_refl eq_refl) as [E _].
    exact (f_equal result_of E).
  - destruct (HB "look around" [Line "exit"] 200 [] eq_refl eq_refl eq_refl eq_refl)
      as [E _].
    rewrite E. reflexivity.
Defined.

(** C10, as stated, fails: a successful reply whose JSON is a list carries
    no [dm_response] field either, yet [send_message] does not return the
    empty string: the lookup raises [AttributeError]. *)
Lemma send_message_raises_on_list_reply :
  active client7 /\
  answer list_service world0 (interact_request client7 "look around")
    = Response 200 (Some (PList [])) /\
  result_of (send_message list_service "look around" client7 world0)
    = Raise AttributeError /\
  result_of (send_message list_service "look around" client7 world0)
    <> Ret (PStr "").
Proof.
  split; [reflexivity |]. split; [reflexivity |]. split; [reflexivity | discriminate].
Qed.

(** ** Methods that leave the object alone *)

Lemma untouched_refl c w : untouched c w c w.
Proof. split; reflexivity. Qed.

Lemma untouched_trans c1 w1 c2 w2 c3 w3 :
  untouched c1 w1 c2 w2 -> untouched c2 w2 c3 w3 -> untouched c1 w1 c3 w3.
Proof. intros [-> E1] [-> E2]. split; congruence. Qed.

Lemma untouched_out c w o :
  untouched c w c (mkWorld (now w) (calls w) (out w ++ [o]) (ended w)).
Proof. split; reflexivity. Qed.

Lemma untouched_time c w d : 0 <= d ->
  untouched c w c (mkWorld (now w + d) (calls w) (out w) (ended w)).
Proof. split; reflexivity. Qed.

Lemma untouched_net c w rq d : 0 <= d ->
  untouched c w c (mkWorld (now w + d) (calls w ++ [rq]) (out w) (ended w)).
Proof. split; reflexivity. Qed.

Ltac untouched_by lem :=
  apply lem;
  first [ exact untouched_refl | exact untouched_trans | exact untouched_out
        | exact untouched_time
        | intros; apply untouched_net; assumption ].

Lemma check_server_untouched remote : respects untouched (check_server remote).
Proof. untouched_by respects_check_server. Qed.

Lemma wait_for_server_untouched remote t : respects untouched (wait_for_server remote t).
Proof. untouched_by respects_wait_for_server. Qed.

Lemma reachable_or_wait_untouched remote : respects untouched (reachable_or_wait remote).
Proof. untouched_by respects_reachable_or_wait. Qed.

Lemma list_sessions_untouched remote cid : respects untouched (list_sessions remote cid).
Proof. untouched_by respects_list_sessions. Qed.

Lemma send_message_untouched remote s : respects untouched (send_message remote s).
Proof. untouched_by respects_send_message. Qed.

Lemma end_session_body_untouched remote : respects untouched (end_session_body remote).
Proof. untouched_by respects_end_session_body. Qed.

Lemma end_session_client remote c w : client_of (end_session remote c w) = c.
Proof.
  unfold end_session, bind, spy_end.
  apply (end_session_body_untouched remote c (spied w)).
Qed.


(** ** Ending a session *)

Lemma end_session_calls remote c w :
  calls (world_of (end_session remote c w)) =
    if truthy (session_id c) then (calls w ++ [end_request c])%list else calls w.
Proof.
  unfold end_session, end_session_body, bind, spy_end, self, try_request, bind,
    requests_post, send, raise_for_status, json, lift, py_get, raise, ret, print,
    world_of, end_request.
  cbn. destruct (truthy (session_id c)); cbn; [| reflexivity].
  destruct (fst (remote _ _)) as [| st b]; cbn; [reflexivity |].
  destruct (http_error st); cbn; [reflexivity |].
  destruct b as [[] |]; reflexivity.
Qed.

Lemma end_session_idle remote c w :
  truthy (session_id c) = false ->
  end_session remote c w = (Ret PNone, c, spied w).
Proof.
  intros H. unfold end_session, end_session_body, bind, spy_end, self.
  rewrite H. reflexivity.
Qed.

(** C1, amended.  [end_session] never assigns to the identity: after a call
    the object is as before, so with a session id that is set and truthy a
    second call in a row posts a second end request; only with a falsy
    session id does it return [None] without a request. *)
Theorem end_session_keeps_identity remote c w :
  client_of (end_session remote c w) = c /\
  client_of (end_session remote (client_of (end_session remote c w))
               (world_of (end_session remote c w))) = c /\
  if truthy (session_id c)
  then calls (world_of (end_session remote c w)) = (calls w ++ [end_request c])%list /\
       calls (world_of (end_session remote (client_of (end_session remote c w))
                          (world_of (end_session remote c w))))
         = (calls w ++ [end_request c; end_request c])%list
  else end_session remote c w = (Ret PNone, c, spied w).
Proof.
  rewrite !end_session_client. split; [reflexivity |]. split; [reflexivity |].
  destruct (truthy (session_id c)) eqn:E.
  - rewrite !end_session_calls, E. split; [reflexivity |].
    rewrite <- app_assoc. reflexivity.
  - apply end_session_idle. exact E.
Qed.

(** C1, as stated, fails: after a first [end_session] that returned a recap
    the identity is still set, and the second call posts again and returns a
    recap too. *)
Lemma end_session_twice_posts_twice :
  result_of (end_session recap_service client7 world0) = Ret (PStr "The party rests.") /\
  client_of (end_session recap_service client7 world0) = client7 /\
  result_of (end_session recap_service
               (client_of (end_session recap_service client7 world0))
               (world_of (end_session recap_service client7 world0)))
    <> Ret PNone /\
  calls (world_of (end_session recap_service
                     (client_of (end_session recap_service client7 world0))
                     (world_of (end_session recap_service client7 world0))))
    = [end_request client7; end_request client7].
Proof.
  cbv. repeat split; try reflexivity. discriminate.
Qed.

(** ** Establishing a session *)

Lemma reachable_or_wait_up remote c w :
  answer remote w (probe c) <> ConnError ->
  reachable_or_wait remote c w = (Ret true, c, after_call remote w (probe c)).
Proof.
  intros H. unfold reachable_or_wait, bind. rewrite check_server_eq.
  destruct (answer remote w (probe c)); [contradiction | reflexivity].
Qed.

Lemma load_session_client remote sid cid wid c w :
  client_of (load_session remote sid cid wid c w) = c \/
  client_of (load_session remote sid cid wid c w)
    = mkClient (PInt cid) (PInt wid) (PInt sid) (server_url c) (api_key c).
Proof.
  unfold load_session, bind.
  destruct (reachable_or_wait_untouched remote c w) as [Hc _].
  destruct (reachable_or_wait remote c w) as [[[b | e] c1] w1]; cbn in Hc; subst c1.
  - destruct b; cbn; auto.
  - left. reflexivity.
Qed.

Ltac unfold_start :=
  unfold bind, set_campaign_id, set_world_id, set_session_id, try_request, bind,
    requests_post, send, raise_for_status, json, lift, py_subscript, raise, ret, print;
  cbn.

Lemma start_session_client remote cid wid c w :
  client_of (start_session remote cid wid c w) = c \/
  (campaign_id (client_of (start_session remote cid wid c w)) = PInt cid /\
   world_id (client_of (start_session remote cid wid c w)) = PInt wid).
Proof.
  destruct (start_session remote cid wid c w) as [[o c'] w'] eqn:E.
  unfold client_of. cbn [fst snd]. revert E.
  unfold start_session, bind at 1.
  destruct (reachable_or_wait_untouched remote c w) as [Hc _].
  destruct (reachable_or_wait remote c w) as [[[b | e] c1] w1]; cbn in Hc; subst c1.
  - destruct b; cbn [negb].
    + unfold_start.
      destruct (fst (remote (List.length (calls w1)) _)) as [| st b]; cbn.
      { intros E; inversion E; subst. right. split; reflexivity. }
      destruct (http_error st); cbn.
      { intros E; inversion E; subst. right. split; reflexivity. }
      destruct b as [[] |]; cbn;
        try (intros E; inversion E; subst; right; split; reflexivity).
      destruct (assoc "session_id" d); cbn;
        intros E; inversion E; subst; right; split; reflexivity.
    + intros E; inversion E; subst. left. reflexivity.
  - intros E; inversion E; subst. left. reflexivity.
Qed.

Lemma init_unset url key env c0 : init url key env = Ret c0 -> fully_unset c0.
Proof.
  unfold init. intros H.
  destruct (match key with Some k => if (k =? "")%string then env else Some k | None => env end)
    as [k |]; [| discriminate].
  destruct (k =? "")%string; [discriminate |].
  injection H as <-. repeat split.
Qed.

Lemma run_op_identity_ok remote o c w :
  identity_ok c -> identity_ok (fst (run_op remote o c w)).
Proof.
  intros H. destruct o as [| t | cid | sid cid wid | cid wid | s |];
    cbn [run_op forget fst].
  - rewrite (proj1 (check_server_untouched remote c w)). exact H.
  - rewrite (proj1 (wait_for_server_untouched remote t c w)). exact H.
  - rewrite (proj1 (list_sessions_untouched remote cid c w)). exact H.
  - destruct (load_session_client remote sid cid wid c w) as [E | E];
      rewrite E; [exact H |].
    right. split; discriminate.
  - destruct (start_session_client remote cid wid c w) as [E | [E1 E2]].
    + rewrite E. exact H.
    + right. unfold is_set. rewrite E1, E2. split; discriminate.
  - rewrite (proj1 (send_message_untouched remote s c w)). exact H.
  - rewrite end_session_client. exact H.
Qed.

Lemma run_ops_identity_ok remote os c w :
  identity_ok c -> identity_ok (fst (run_ops remote os c w)).
Proof.
  revert c w. induction os as [| o os IH]; intros c w H; cbn [run_ops].
  - exact H.
  - pose proof (run_op_identity_ok remote o c w H) as H1.
    destruct (run_op remote o c w) as [c1 w1]. apply IH. exact H1.
Qed.

Lemma start_session_fails_after_check remote cid wid c w :
  result_of (reachable_or_wait remote c w) = Ret true ->
  transport_failure
    (answer remote (world_of (reachable_or_wait remote c w)) (start_request c cid)) ->
  result_of (start_session remote cid wid c w) = Ret false /\
  client_of (start_session remote cid wid c w)
    = mkClient (PInt cid) (PInt wid) (session_id c) (server_url c) (api_key c).
Proof.
  intros Hup Hfail.
  destruct (start_session remote cid wid c w) as [[o c'] w'] eqn:E.
  unfold result_of, client_of. cbn [fst snd]. revert E.
  unfold start_session, bind at 1.
  destruct (reachable_or_wait_untouched remote c w) as [Hc _].
  revert Hup Hfail Hc. unfold result_of, client_of, world_of.
  destruct (reachable_or_wait remote c w) as [[[b | e] c1] w1]; cbn [fst snd];
    intros Hup Hfail Hc; [| discriminate].
  injection Hup as ->. subst c1. cbn [negb].
  revert Hfail. unfold answer, start_request, transport_failure.
  unfold_start.
  destruct (fst (remote _ _)) as [| st b]; cbn.
  { intros _ E; inversion E; subst. split; reflexivity. }
  intros [H | H].
  - rewrite H. cbn. intros E; inversion E; subst. split; reflexivity.
  - subst b. destruct (http_error st); cbn; intros E; inversion E; subst; split; reflexivity.
Qed.

Lemma start_session_stops_at_check remote cid wid c w :
  result_of (reachable_or_wait remote c w) = Ret false ->
  result_of (start_session remote cid wid c w) = Ret false /\
  client_of (start_session remote cid wid c w) = c.
Proof.
  intros Hdown.
  destruct (start_session remote cid wid c w) as [[o c'] w'] eqn:E.
  unfold result_of, client_of. cbn [fst snd]. revert E.
  unfold start_session, bind at 1.
  destruct (reachable_or_wait_untouched remote c w) as [Hc _].
  revert Hdown Hc. unfold result_of, client_of.
  destruct (reachable_or_wait remote c w) as [[[b | e] c1] w1]; cbn [fst snd];
    intros Hdown Hc; [| discriminate].
  injection Hdown as ->. subst c1. cbn [negb].
  intros E; inversion E; subst. split; reflexivity.
Qed.

(** C2, amended.  After any sequence of calls on a freshly constructed
    controller the identity is fully unset or has its campaign id and its
    world id set; the session id may still be unset then.  A
    [start_session] that passes the reachability check, at the first probe
    or after waiting, and whose create call meets a transport failure
    returns [False] and leaves exactly that state: the campaign and world
    ids are the supplied ones, the session id is as it was.  A
    [start_session] that does not pass the check returns [False] with the
    object as it was. *)
Theorem identity_unset_or_campaign_and_world_set remote :
  (forall url key env c0 os w,
     init url key env = Ret c0 ->
     identity_ok (fst (run_ops remote os c0 w))) /\
  (forall cid wid c w,
     result_of (reachable_or_wait remote c w) = Ret true ->
     transport_failure
       (answer remote (world_of (reachable_or_wait remote c w)) (start_request c cid)) ->
     result_of (start_session remote cid wid c w) = Ret false /\
     client_of (start_session remote cid wid c w)
       = mkClient (PInt cid) (PInt wid) (session_id c) (server_url c) (api_key c)) /\
  (forall cid wid c w,
     result_of (reachable_or_wait remote c w) = Ret false ->
     result_of (start_session remote cid wid c w) = Ret false /\
     client_of (start_session remote cid wid c w) = c).
Proof.
  split; [| split].
  - intros url key env c0 os w H. apply run_ops_identity_ok.
    left. exact (init_unset url key env c0 H).
  - intros cid wid c w. apply start_session_fails_after_check.
  - intros cid wid c w. apply start_session_stops_at_check.
Qed.

Lemma identity_unset_or_campaign_and_world_set_witness :
  init None (Some "secret") None = Ret client0 /\
  identity_ok (fst (run_ops refusing_service [StartSession 1 1; SendMessage "hi"; EndSession]
                      client0 world0)) /\
  result_of (reachable_or_wait late_refusing_service client0 world0) = Ret true /\
  client_of (start_session late_refusing_service 1 1 client0 world0)
    = mkClient (PInt 1) (PInt 1) PNone DEFAULT_SERVER_URL "secret" /\
  result_of (reachable_or_wait dead_service client0 world0) = Ret false /\
  client_of (start_session dead_service 1 1 client0 world0) = client0.
Proof.
  assert (I : init None (Some "secret") None = Ret client0) by reflexivity.
  assert (U : result_of (reachable_or_wait late_refusing_service client0 world0) = Ret true)
    by (vm_compute; reflexivity).
  assert (D : result_of (reachable_or_wait dead_service client0 world0) = Ret false)
    by (vm_compute; reflexivity).
  split; [exact I |]. split; [| split; [exact U | split; [| split; [exact D |]]]].
  - exact (proj1 (identity_unset_or_campaign_and_world_set refusing_service)
             None (Some "secret") None client0
             [StartSession 1 1; SendMessage "hi"; EndSession] world0 I).
  - refine (proj2 (proj1 (proj2 (identity_unset_or_campaign_and_world_set
                                   late_refusing_service))
                     1 1 client0 world0 U _)).
    vm_compute. left. reflexivity.
  - exact (proj2 (proj2 (proj2 (identity_unset_or_campaign_and_world_set dead_service))
                    1 1 client0 world0 D)).
Defined.

(** C2, as stated, fails: a create call that meets a transport failure
    leaves the campaign and world ids set and the session id unset, neither
    fully set nor fully unset. *)
Lemma start_session_failure_leaves_half_set :
  init None (Some "secret") None = Ret client0 /\
  result_of (start_session refusing_service 1 1 client0 world0) = Ret false /\
  ~ fully_unset (client_of (start_session refusing_service 1 1 client0 world0)) /\
  ~ fully_set (client_of (start_session refusing_service 1 1 client0 world0)).
Proof.
  split; [reflexivity |]. split; [reflexivity |]. split.
  - intros [H _]. cbv in H. discriminate.
  - intros [_ [_ H]]. apply H. reflexivity.
Qed.

(** ** Waiting for a service that is down *)

Lemma wait_loop_down remote start t c w :
  (forall n, fst (remote n (probe c)) = ConnError) ->
  exists w',
    wait_loop remote start t c w = (Ret false, c, w') /\
    (exists k, calls w' = (calls w ++ repeat (probe c) k)%list) /\
    ended w' = ended w /\
    ms t <= now w' - start /\
    (forall D, (forall n, Z.of_N (snd (remote n (probe c))) <= D) ->
       now w - start < ms t + D + ms 5 -> now w' - start < ms t + D + ms 5).
Proof.
  funelim (wait_loop remote start t c w); intros Hdown.
  - eexists. split; [reflexivity |]. cbn. repeat split.
    + exists 0%nat. cbn. rewrite app_nil_r. reflexivity.
    + lia.
    + intros D _ H. exact H.
  - exfalso. pose proof e as E0. rewrite check_server_eq in E0. unfold answer in E0.
    rewrite Hdown in E0. discriminate.
  - pose proof e as E0. rewrite check_server_eq in E0. unfold answer in E0.
    rewrite Hdown in E0. injection E0 as <- <-.
    destruct (H Hdown) as [w' [E [[k Hk] [He [Hlo Hup]]]]].
    exists w'. split; [exact E |]. cbn in Hk, He, Hup. repeat split.
    + exists (S k). rewrite Hk, <- app_assoc. reflexivity.
    + exact He.
    + exact Hlo.
    + intros D HD _. apply (Hup D HD).
      specialize (HD (List.length (calls w))). unfold ms in *. lia.
  - exfalso.
    match goal with
    | E0 : check_server _ _ _ = (Raise _, _, _) |- _ =>
        pose proof E0 as E1; rewrite check_server_eq in E1; discriminate
    end.
Qed.

Lemma wait_for_server_down remote t c w :
  (forall n, fst (remote n (probe c)) = ConnError) ->
  exists w',
    wait_for_server remote t c w = (Ret false, c, w') /\
    (exists k, calls w' = (calls w ++ repeat (probe c) k)%list) /\
    ended w' = ended w /\
    ms t <= now w' - now w /\
    (forall D, (forall n, Z.of_N (snd (remote n (probe c))) <= D) ->
       0 <= t -> now w' - now w < ms t + D + ms 5).
Proof.
  intros Hdown. unfold wait_for_server, bind, print, time_time. cbn.
  destruct (wait_loop_down remote (now w) t c
              (mkWorld (now w) (calls w)
                 (out w ++ [Print [Txt "Checking server connection..."]]) (ended w))
              Hdown) as [w' [E [Hk [He [Hlo Hup]]]]].
  exists w'. cbn in *. repeat split; try assumption.
  intros D HD Ht. apply (Hup D HD).
  specialize (HD 0%nat). unfold ms. lia.
Qed.

(** C7, amended.  Against a service that never answers, [wait_for_server]
    terminates and returns [False] without raising, no sooner than
    [timeout] seconds after it started; for a timeout that is not negative
    it returns before [timeout] plus five seconds plus the longest time a
    probe takes, hence before [timeout + 5] only when probes fail at
    once. *)
Theorem wait_for_server_times_out remote t c w :
  (forall n, fst (remote n (probe c)) = ConnError) ->
  exists w',
    wait_for_server remote t c w = (Ret false, c, w') /\
    ms t <= now w' - now w /\
    (forall D, (forall n, Z.of_N (snd (remote n (probe c))) <= D) ->
       0 <= t -> now w' - now w < ms t + D + ms 5).
Proof.
  intros Hdown.
  destruct (wait_for_server_down remote t c w Hdown) as [w' [E [_ [_ [Hlo Hup]]]]].
  exists w'. repeat split; assumption.
Qed.

Lemma wait_for_server_times_out_witness :
  result_of (wait_for_server dead_service 30 client0 world0) = Ret false /\
  now (world_of (wait_for_server dead_service 30 client0 world0)) < ms 30 + ms 5.
Proof.
  destruct (wait_for_server_times_out dead_service 30 client0 world0 (fun _ => eq_refl))
    as [w' [E [_ Hup]]].
  rewrite E. split; [reflexivity |].
  specialize (Hup 0 (fun _ => Z.le_refl 0)). cbn in *. lia.
Defined.

(** C7, as stated, fails: when each failed probe takes two seconds, a wait
    of thirty seconds returns after thirty-five, not strictly before. *)
Lemma wait_for_server_overruns_with_slow_probes :
  (forall n, fst (dead2s n (probe client0)) = ConnError) /\
  result_of (wait_for_server dead2s 30 client0 world0) = Ret false /\
  ~ (now (world_of (wait_for_server dead2s 30 client0 world0)) - now world0
       < ms 30 + ms 5).
Proof.
  split; [reflexivity |]. split; [reflexivity |].
  vm_compute. intros H. discriminate H.
Qed.

(** C5.  When the service is down, [start_session] returns [False] once
    the wait has timed out, has sent nothing but probes, and hands the
    object back as it was: an identity that was fully unset stays so. *)
Theorem start_session_down_is_noop remote cid wid c w :
  (forall n, fst (remote n (probe c)) = ConnError) ->
  exists w',
    start_session remote cid wid c w = (Ret false, c, w') /\
    (exists k, calls w' = (calls w ++ repeat (probe c) k)%list) /\
    (fully_unset c -> fully_unset (client_of (start_session remote cid wid c w))).
Proof.
  intros Hdown.
  destruct (wait_for_server_down remote 30 c (after_call remote w (probe c)) Hdown)
    as [w' [E [[k Hk] _]]].
  assert (HS : start_session remote cid wid c w = (Ret false, c, w')).
  { unfold start_session, bind at 1. unfold reachable_or_wait, bind.
    rewrite check_server_eq. unfold answer. rewrite Hdown. cbn [negb].
    rewrite E. reflexivity. }
  exists w'. split; [exact HS |]. split.
  - exists (S k). rewrite Hk. cbn. rewrite <- app_assoc. reflexivity.
  - rewrite HS. intros H. exact H.
Qed.

Lemma start_session_down_is_noop_witness :
  result_of (start_session dead_service 1 1 client0 world0) = Ret false /\
  fully_unset (client_of (start_session dead_service 1 1 client0 world0)).
Proof.
  destruct (start_session_down_is_noop dead_service 1 1 client0 world0 (fun _ => eq_refl))
    as [w' [E [_ H]]].
  split.
  - rewrite E. reflexivity.
  - apply H. repeat split.
Defined.

(** ** The chat loop *)

Lemma is_space_lower c : is_space (lower_char c) = is_space c.
Proof. destruct c as [[] [] [] [] [] [] [] []]; reflexivity. Qed.

Lemma strip_word c1 c2 c3 c4 :
  is_space c1 = false -> is_space c4 = false ->
  strip (String c1 (String c2 (String c3 (String c4 "")))) =
    String c1 (String c2 (String c3 (String c4 ""))).
Proof.
  intros H1 H4. unfold strip. cbn [lstrip]. rewrite H1.
  cbn [rstrip]. rewrite H4. reflexivity.
Qed.

Lemma exit_word_recognised tok :
  lower tok = "quit" \/ lower tok = "exit" ->
  in_exit_words (lower (strip tok)) = true.
Proof.
  intros H.
  destruct tok as [| c1 [| c2 [| c3 [| c4 [| c5 tok]]]]];
    try (destruct H as [H | H]; discriminate H).
  assert (E : is_space c1 = false /\ is_space c4 = false).
  { rewrite <- (is_space_lower c1), <- (is_space_lower c4).
    destruct H as [H | H]; cbn [lower] in H; injection H as -> _ _ ->;
      split; reflexivity. }
  destruct E as [E1 E4]. rewrite (strip_word c1 c2 c3 c4 E1 E4).
  destruct H as [-> | ->]; reflexivity.
Qed.







(** * Further properties of the client *)

(** ** Construction *)

(** X1.  The constructor raises [ValueError] exactly when neither the
    argument nor the environment holds a non-empty key.  When it succeeds
    the identity is fully unset, the key is non-empty and is the argument if
    that is non-empty, else the environment's, and the address is never
    empty. *)
Theorem init_needs_a_key url key env :
  (forall c, init url key env = Ret c ->
     fully_unset c /\ api_key c <> "" /\ server_url c <> "" /\
     (key = Some (api_key c) \/
      ((key = None \/ key = Some "") /\ env = Some (api_key c)))) /\
  (forall e, init url key env = Raise e ->
     e = ValueError /\ (key = None \/ key = Some "") /\ (env = None \/ env = Some "")) /\
  (forall k, key = Some k -> k <> "" ->
     exists c, init url key env = Ret c /\ api_key c = k).
Proof.
  assert (U : (match url with
               | Some u => if (u =? "")%string then DEFAULT_SERVER_URL else u
               | None => DEFAULT_SERVER_URL
               end) <> "").
  { destruct url as [u |]; [| discriminate].
    destruct (String.eqb_spec u ""); [discriminate | assumption]. }
  unfold init. split; [| split].
  - intros c H. destruct key as [k |].
    + destruct (String.eqb_spec k "") as [-> | Hk].
      * destruct env as [k' |]; [| discriminate].
        destruct (String.eqb_spec k' "") as [-> | Hk']; [discriminate |].
        injection H as <-. cbn. repeat split; auto.
      * rewrite (proj2 (String.eqb_neq k "") Hk) in H.
        injection H as <-. cbn. repeat split; auto.
    + destruct env as [k' |]; [| discriminate].
      destruct (String.eqb_spec k' "") as [-> | Hk']; [discriminate |].
      injection H as <-. cbn. repeat split; auto.
  - intros e H. destruct key as [k |].
    + destruct (String.eqb_spec k "") as [-> | Hk].
      * destruct env as [k' |].
        -- destruct (String.eqb_spec k' "") as [-> | Hk']; [| discriminate].
           injection H as <-. auto.
        -- injection H as <-. auto.
      * rewrite (proj2 (String.eqb_neq k "") Hk) in H. discriminate.
    + destruct env as [k' |].
      * destruct (String.eqb_spec k' "") as [-> | Hk']; [| discriminate].
        injection H as <-. auto.
      * injection H as <-. auto.
  - intros k -> Hk. rewrite !(proj2 (String.eqb_neq k "") Hk).
    eexists. split; reflexivity.
Qed.

Lemma init_needs_a_key_witness :
  init None None (Some "") = Raise ValueError /\
  exists c, init (Some "") (Some "k1") (Some "k2") = Ret c /\ api_key c = "k1".
Proof.
  split; [reflexivity |].
  apply (proj2 (proj2 (init_needs_a_key (Some "") (Some "k1") (Some "k2"))) "k1" eq_refl).
  discriminate.
Defined.

(** ** Resuming a session *)

(** X2.  When the probe gets any response, [load_session] returns [True]
    and takes the three identifiers as given: the probe is the only request
    it sends, so nothing checks that the session exists. *)
Theorem load_session_trusts_caller remote sid cid wid c w :
  answer remote w (probe c) <> ConnError ->
  load_session remote sid cid wid c w =
    (Ret true,
     mkClient (PInt cid) (PInt wid) (PInt sid) (server_url c) (api_key c),
     after_call remote w (probe c)).
Proof.
  intros H. unfold load_session, bind at 1.
  rewrite (reachable_or_wait_up remote c w H). reflexivity.
Qed.

Lemma load_session_trusts_caller_witness :
  client_of (load_session failing_service 999 1 1 client0 world0)
    = mkClient (PInt 1) (PInt 1) (PInt 999) DEFAULT_SERVER_URL "secret" /\
  calls (world_of (load_session failing_service 999 1 1 client0 world0)) = [probe client0].
Proof.
  assert (H : answer failing_service world0 (probe client0) <> ConnError)
    by (cbv; discriminate).
  rewrite (load_session_trusts_caller failing_service 999 1 1 client0 world0 H).
  split; reflexivity.
Defined.

(** X3.  When the service is down, [load_session] returns [False] once the
    wait has timed out, has sent nothing but probes and leaves the identity as
    it was. *)
Theorem load_session_down_is_noop remote sid cid wid c w :
  (forall n, fst (remote n (probe c)) = ConnError) ->
  exists w',
    load_session remote sid cid wid c w = (Ret false, c, w') /\
    (exists k, calls w' = (calls w ++ repeat (probe c) k)%list) /\
    ms 30 <= now w' - now w.
Proof.
  intros Hdown.
  destruct (wait_for_server_down remote 30 c (after_call remote w (probe c)) Hdown)
    as [w' [E [[k Hk] [_ [Hlo _]]]]].
  exists w'. split; [| split].
  - unfold load_session, bind at 1. unfold reachable_or_wait, bind.
    rewrite check_server_eq. unfold answer. rewrite Hdown. cbn [negb].
    rewrite E. reflexivity.
  - exists (S k). rewrite Hk. cbn. rewrite <- app_assoc. reflexivity.
  - cbn in Hlo. lia.
Qed.

Lemma load_session_down_is_noop_witness :
  result_of (load_session dead_service 7 1 1 client0 world0) = Ret false /\
  client_of (load_session dead_service 7 1 1 client0 world0) = client0.
Proof.
  destruct (load_session_down_is_noop dead_service 7 1 1 client0 world0 (fun _ => eq_refl))
    as [w' [E _]].
  rewrite E. split; reflexivity.
Defined.

(** ** Waiting, whatever the service does *)

(** X4.  With a timeout that is not positive, [wait_for_server] gives up at
    once: it returns [False] without a single probe and without sleeping,
    even when the service is up. *)
Theorem wait_for_server_without_patience remote t c w :
  t <= 0 ->
  wait_for_server remote t c w =
    (Ret false, c,
     mkWorld (now w) (calls w)
       (out w ++ [Print [Txt "Checking server connection..."];
                  Print [Txt nl; Txt "Server connection timed out after "; Num t;
                         Txt " seconds."]])
       (ended w)).
Proof.
  intros Ht. unfold wait_for_server, bind, print, time_time. cbn.
  rewrite wait_loop_equation_1. cbn [now].
  destruct (Z_lt_dec (now w - now w) (ms t)) as [H | H].
  - exfalso. unfold ms in H. lia.
  - cbn. unfold bind, print, ret. cbn. rewrite <- app_assoc. reflexivity.
Qed.

Lemma wait_for_server_without_patience_witness :
  result_of (wait_for_server listing_service 0 client0 world0) = Ret false /\
  calls (world_of (wait_for_server listing_service 0 client0 world0)) = [].
Proof.
  rewrite (wait_for_server_without_patience listing_service 0 client0 world0 (Z.le_refl 0)).
  split; reflexivity.
Defined.

Lemma wait_loop_probes_until_answer remote start t c w :
  exists b k w',
    wait_loop remote start t c w = (Ret b, c, w') /\
    calls w' = (calls w ++ repeat (probe c) k)%list /\
    (forall i, (i < (if b then k - 1 else k))%nat ->
       reply_at remote (List.length (calls w) + i) (probe c) = ConnError) /\
    (if b
     then (0 < k)%nat /\
          reply_at remote (List.length (calls w) + (k - 1)) (probe c) <> ConnError
     else ms t <= now w' - start) /\
    now w + ms 5 * Z.of_nat (if b then k - 1 else k) <= now w'.
Proof.
  funelim (wait_loop remote start t c w).
  - exists false, 0%nat. eexists. split; [reflexivity |]. cbn. repeat split.
    + rewrite app_nil_r. reflexivity.
    + intros i Hi. lia.
    + lia.
    + unfold ms. lia.
  - pose proof e as E0. rewrite check_server_eq in E0.
    destruct (answer remote w (probe c)) eqn:Ha; [discriminate |].
    injection E0 as <- <-.
    exists true, 1%nat. eexists. split; [reflexivity |]. cbn. repeat split.
    + intros i Hi. lia.
    + lia.
    + unfold reply_at. rewrite Nat.add_0_r. unfold answer in Ha. rewrite Ha. discriminate.
    + unfold ms. lia.
  - pose proof e as E0. rewrite check_server_eq in E0.
    destruct (answer remote w (probe c)) eqn:Ha; [| discriminate].
    injection E0 as <- <-.
    match goal with
    | IH : ex _ |- _ => destruct IH as [b [k [w' [E [Hk [Hfail [Hlast Hnow]]]]]]]
    end.
    cbn in E, Hk, Hfail, Hlast, Hnow.
    rewrite length_app in Hfail, Hlast. cbn [List.length] in Hfail, Hlast.
    exists b, (S k), w'. split; [exact E |]. repeat split.
    + rewrite Hk, <- app_assoc. reflexivity.
    + intros i Hi. destruct i as [| j].
      * unfold reply_at. rewrite Nat.add_0_r. exact Ha.
      * replace (List.length (calls w) + S j)%nat
          with (List.length (calls w) + 1 + j)%nat by lia.
        apply Hfail. destruct b; [destruct Hlast as [Hpos _] |]; lia.
    + destruct b.
      * destruct Hlast as [Hpos Hl]. split; [lia |].
        replace (List.length (calls w) + (S k - 1))%nat
          with (List.length (calls w) + 1 + (k - 1))%nat by lia.
        exact Hl.
      * exact Hlast.
    + destruct b.
      * destruct Hlast as [Hpos _].
        replace (S k - 1)%nat with (S (k - 1)) by lia.
        rewrite Nat2Z.inj_succ. unfold ms in *. lia.
      * rewrite Nat2Z.inj_succ. unfold ms in *. lia.
  - exfalso.
    match goal with
    | E0 : check_server _ _ _ = (Raise _, _, _) |- _ =>
        pose proof E0 as E1; rewrite check_server_eq in E1; discriminate
    end.
Qed.

(** X5.  Whatever the service does, [wait_for_server] never raises and
    leaves the object alone; it sends probes only, one after the other, and
    stops at the first that is answered: every probe before the last failed,
    each failure cost at least five seconds, and the result is [True]
    exactly when the last probe got a response, [False] only once [timeout]
    seconds have passed. *)
Theorem wait_for_server_probes_until_answer remote t c w :
  exists b k w',
    wait_for_server remote t c w = (Ret b, c, w') /\
    calls w' = (calls w ++ repeat (probe c) k)%list /\
    (forall i, (i < (if b then k - 1 else k))%nat ->
       reply_at remote (List.length (calls w) + i) (probe c) = ConnError) /\
    (if b
     then (0 < k)%nat /\
          reply_at remote (List.length (calls w) + (k - 1)) (probe c) <> ConnError
     else ms t <= now w' - now w) /\
    now w + ms 5 * Z.of_nat (if b then k - 1 else k) <= now w'.
Proof.
  unfold wait_for_server, bind, print, time_time. cbn.
  apply (wait_loop_probes_until_answer remote (now w) t c
           (mkWorld (now w) (calls w)
              (out w ++ [Print [Txt "Checking server connection..."]]) (ended w))).
Qed.

(** ** Interaction that goes wrong *)

Ltac after_failed_send :=
  unfold raise, ret, bind, json, print; cbn [body status_code];
  unfold raise, ret; rewrite check_server_eq;
  unfold answer, after_call, probe; cbn;
  match goal with
  | |- context [match fst (?f ?n ?r) with _ => _ end] => destruct (fst (f n r))
  end; cbn; rewrite <- ?app_assoc; reflexivity.

Lemma send_message_failed remote c w user_input :
  active c ->
  transport_failure (answer remote w (interact_request c user_input)) ->
  exists cause,
    send_message remote user_input c w =
      (Ret PNone, c,
       let w1 := after_call remote w (interact_request c user_input) in
       let w2 := after_call remote w1 (probe c) in
       mkWorld (now w2) (calls w2)
         (out w ++ Print [Txt "Error sending message: "; Exc (RequestException cause)]
                :: match answer remote w1 (probe c) with
                   | ConnError => [Print [Txt "Server connection lost!"]]
                   | Response _ _ => []
                   end)
         (ended w2)).
Proof.
  unfold active, answer, interact_request, transport_failure. intros Ha Hf.
  unfold send_message, bind at 1. unfold self. rewrite Ha. cbn [negb].
  unfold try_request, bind at 1. unfold requests_post, send.
  match goal with
  | |- context [fst (remote ?n ?r)] => destruct (fst (remote n r)) as [| st b] eqn:Hr
  end.
  - exists ConnError. after_failed_send.
  - exists (Response st (if http_error st then b else None)).
    unfold bind at 1. unfold raise_for_status. cbn [status_code body].
    destruct Hf as [Hf | Hf].
    + rewrite Hf. after_failed_send.
    + subst b. destruct (http_error st); after_failed_send.
Qed.

(** X6.  With an active session, an interact call that meets a transport
    failure makes [send_message] return [None] without raising and without
    retrying: it sends the interact request, then exactly one probe, and
    prints "Server connection lost!" exactly when that probe fails too. *)
Theorem send_message_failure_probes_once remote c w user_input :
  active c ->
  transport_failure (answer remote w (interact_request c user_input)) ->
  result_of (send_message remote user_input c w) = Ret PNone /\
  client_of (send_message remote user_input c w) = c /\
  calls (world_of (send_message remote user_input c w))
    = (calls w ++ [interact_request c user_input; probe c])%list /\
  (In (Print [Txt "Server connection lost!"])
      (out (world_of (send_message remote user_input c w)))
   <-> In (Print [Txt "Server connection lost!"]) (out w) \/
       answer remote (after_call remote w (interact_request c user_input)) (probe c)
         = ConnError).
Proof.
  intros Ha Hf.
  destruct (send_message_failed remote c w user_input Ha Hf) as [cause E].
  rewrite E. cbn. split; [reflexivity |]. split; [reflexivity |]. split.
  - rewrite <- app_assoc. reflexivity.
  - rewrite in_app_iff. cbn [In].
    destruct (answer remote (after_call remote w (interact_request c user_input)) (probe c));
      cbn [In]; split.
    + intros [H | [H | [H | []]]]; auto; discriminate.
    + intros [H | _]; auto.
    + intros [H | [H | []]]; auto; discriminate.
    + intros [H | H]; [auto | discriminate].
Qed.

Lemma send_message_failure_probes_once_witness :
  active client7 /\
  result_of (send_message refusing_service "open the door" client7 world0) = Ret PNone /\
  List.length (calls (world_of (send_message refusing_service "open the door" client7 world0)))
    = 2%nat.
Proof.
  assert (Ha : active client7) by reflexivity.
  assert (Hf : transport_failure
                 (answer refusing_service world0 (interact_request client7 "open the door")))
    by (left; reflexivity).
  destruct (send_message_failure_probes_once refusing_service client7 world0
              "open the door" Ha Hf) as [E1 [_ [E3 _]]].
  split; [exact Ha |]. split; [exact E1 |]. rewrite E3. reflexivity.
Defined.

Lemma send_message_sends_when_active remote c w user_input :
  active c ->
  exists more,
    calls (world_of (send_message remote user_input c w))
      = (calls w ++ interact_request c user_input :: more)%list.
Proof.
  intros Ha.
  destruct (answer remote w (interact_request c user_input)) as [| st b] eqn:Hr.
  - destruct (send_message_failed remote c w user_input Ha) as [cause E].
    { rewrite Hr. exact I. }
    rewrite E. cbn. exists [probe c]. rewrite <- app_assoc. reflexivity.
  - destruct (http_error st) eqn:He;
      [| destruct b as [v |]].
    + destruct (send_message_failed remote c w user_input Ha) as [cause E].
      { rewrite Hr. left. exact He. }
      rewrite E. cbn. exists [probe c]. rewrite <- app_assoc. reflexivity.
    + exists []. revert Hr. unfold active, answer, interact_request in *. intros Hr.
      unfold send_message, bind at 1. unfold self. rewrite Ha. cbn [negb].
      unfold try_request, bind at 1. unfold requests_post, send. rewrite Hr.
      unfold bind at 1. unfold raise_for_status. cbn [status_code]. rewrite He.
      unfold ret, bind at 1. unfold json. cbn [body]. unfold ret, bind, lift.
      unfold py_get, py_replace_br.
      destruct v as [| | | | | d]; cbn; try reflexivity.
      destruct (assoc "dm_response" d) as [[] |]; reflexivity.
    + destruct (send_message_failed remote c w user_input Ha) as [cause E].
      { rewrite Hr. right. reflexivity. }
      rewrite E. cbn. exists [probe c]. rewrite <- app_assoc. reflexivity.
Qed.

(** X7.  [send_message] goes to the network exactly when all three
    identity fields are truthy: a field that is [None], but also one that is
    set to 0, makes it return without a request. *)
Theorem send_message_sends_iff_active remote c w user_input :
  calls (world_of (send_message remote user_input c w)) = calls w <-> ~ active c.
Proof.
  split.
  - intros H Ha.
    destruct (send_message_sends_when_active remote c w user_input Ha) as [more E].
    rewrite E in H. apply (f_equal (@List.length request)) in H.
    rewrite length_app in H. cbn in H. lia.
  - intros H. rewrite send_message_rejected; [reflexivity |].
    unfold active in H. destruct (py_all _); [contradiction H; reflexivity | reflexivity].
Qed.

Lemma send_message_sends_iff_active_witness :
  fully_set client_zero /\
  calls (world_of (send_message narrator_service "hello" client_zero world0)) = [].
Proof.
  split.
  - repeat split; discriminate.
  - apply (proj2 (send_message_sends_iff_active narrator_service client_zero world0 "hello")).
    intros H. discriminate H.
Defined.

(** X8.  When the interact call succeeds but its [dm_response] is not a
    string (JSON null, say), [send_message] raises [AttributeError] instead
    of returning; the chat loop takes that for an unexpected error and
    ends, with the later lines unread. *)
Theorem chat_ends_on_non_text_reply remote c w text rest status d v :
  active c ->
  in_exit_words (lower (strip text)) = false ->
  answer remote w (interact_request c (strip text)) = Response status (Some (PDict d)) ->
  http_error status = false ->
  assoc "dm_response" d = Some v ->
  (forall s, v <> PStr s) ->
  send_message remote (strip text) c w =
    (Raise AttributeError, c, after_call remote w (interact_request c (strip text))) /\
  chat_loop remote (Line text :: rest) c w =
    (Ret rest, c,
     let w1 := after_call remote (prompted w) (interact_request c (strip text)) in
     mkWorld (now w1) (calls w1)
       (out w1 ++ [Print [Txt nl; Txt "Unexpected error: "; Exc AttributeError];
                   Print [Txt "Ending session..."]])
       (ended w1)).
Proof.
  intros Ha Hx Hr He Hd Hv.
  assert (HS : forall w0, answer remote w0 (interact_request c (strip text))
                          = Response status (Some (PDict d)) ->
             send_message remote (strip text) c w0 =
               (Raise AttributeError, c,
                after_call remote w0 (interact_request c (strip text)))).
  { intros w0 H0.
    rewrite (send_message_answered remote c w0 (strip text) status d Ha H0 He), Hd.
    destruct v; try reflexivity. exfalso. exact (Hv s eq_refl). }
  split; [apply HS; exact Hr |].
  cbn [chat_loop]. unfold bind at 1. unfold prompt at 1.
  rewrite Hx. fold (prompted w). rewrite (HS (prompted w) Hr).
  unfold bind, print. cbn. rewrite <- app_assoc. reflexivity.
Qed.

Lemma chat_ends_on_non_text_reply_witness :
  result_of (chat_loop null_service [Line "look"; Line "listen"] client7 world0)
    = Ret [Line "listen"].
Proof.
  destruct (chat_ends_on_non_text_reply null_service client7 world0 "look" [Line "listen"]
              200 [("dm_response", PNone)] PNone
              eq_refl eq_refl eq_refl eq_refl eq_refl) as [_ E].
  - intros s H. discriminate H.
  - rewrite E. reflexivity.
Defined.

(** X9.  A turn whose interact call meets a transport failure does not end
    the chat: the loop prints no narrator text and goes on to the next
    line, the failed request and the probe after it being all it sent. *)
Theorem chat_goes_on_after_failed_turn remote c w text rest :
  active c ->
  in_exit_words (lower (strip text)) = false ->
  transport_failure (answer remote w (interact_request c (strip text))) ->
  exists w',
    chat_loop remote (Line text :: rest) c w = chat_loop remote rest c w' /\
    calls w' = (calls w ++ [interact_request c (strip text); probe c])%list /\
    (forall s, ~ In (Print [Txt nl; Txt "DM: "; Val s]) (out w) ->
               ~ In (Print [Txt nl; Txt "DM: "; Val s]) (out w')).
Proof.
  intros Ha Hx Hf.
  destruct (send_message_failed remote c (prompted w) (strip text) Ha Hf) as [cause E].
  eexists. split; [| split].
  - cbn [chat_loop]. unfold bind at 1. unfold prompt at 1.
    rewrite Hx. fold (prompted w). rewrite E. cbn [truthy]. unfold bind at 1, ret at 1.
    reflexivity.
  - cbn. rewrite <- app_assoc. reflexivity.
  - intros s Hs. cbn. rewrite !in_app_iff. cbn [In].
    intros [[H | [H | []]] | [H | H]]; try discriminate; auto.
    destruct (answer remote _ (probe c)); cbn in H; [destruct H as [H | []] | destruct H];
      discriminate.
Qed.

Lemma chat_goes_on_after_failed_turn_witness :
  result_of (chat_loop refusing_service [Line "look"; Line "exit"; Line "north"]
               client7 world0) = Ret [Line "north"].
Proof.
  destruct (chat_goes_on_after_failed_turn refusing_service client7 world0 "look"
              [Line "exit"; Line "north"] eq_refl eq_refl (or_introl eq_refl))
    as [w' [E _]].
  rewrite E. reflexivity.
Defined.

(** ** What ending and creating a session return *)

(** X10.  With a truthy session id, [end_session] sends exactly one end
    request and lets no transport failure out: it returns [None] on a
    failure and when the reply has no recap, the recap when there is one,
    and raises only when the reply is JSON but not an object. *)
Theorem end_session_recap_or_none remote c w :
  truthy (session_id c) = true ->
  calls (world_of (end_session remote c w)) = (calls w ++ [end_request c])%list /\
  (transport_failure (answer remote w (end_request c)) ->
     result_of (end_session remote c w) = Ret PNone) /\
  (forall status d,
     answer remote w (end_request c) = Response status (Some (PDict d)) ->
     http_error status = false ->
     result_of (end_session remote c w)
       = Ret (match assoc "recap" d with Some recap => recap | None => PNone end)) /\
  (forall e, result_of (end_session remote c w) = Raise e -> e = AttributeError).
Proof.
  intros Ht. split.
  { rewrite end_session_calls, Ht. reflexivity. }
  unfold answer, end_request, transport_failure.
  unfold end_session, end_session_body, bind, spy_end, self. cbn. rewrite Ht. cbn [negb].
  unfold try_request, bind, requests_post, send, raise_for_status, json, lift, py_get,
    raise, ret, print, result_of. cbn.
  destruct (fst (remote _ _)) as [| st b]; cbn.
  - repeat split; try reflexivity; intros; discriminate.
  - destruct (http_error st) eqn:He; cbn.
    + repeat split; try reflexivity.
      * intros ? ? H F. inversion H; subst. congruence.
      * intros; discriminate.
    + destruct b as [[] |]; cbn; repeat split; try reflexivity;
        try (intros [F | F]; discriminate);
        try (intros ? ? H _; inversion H; subst; reflexivity);
        try (intros ? ? H _; discriminate H);
        try (intros e H; inversion H; reflexivity);
        try (intros; discriminate).
Qed.

Lemma end_session_recap_or_none_witness :
  result_of (end_session failing_service client7 world0) = Ret PNone /\
  result_of (end_session mute_service client7 world0) = Ret PNone.
Proof.
  split.
  - apply (proj1 (proj2 (end_session_recap_or_none failing_service client7 world0 eq_refl))).
    left. reflexivity.
  - exact (proj1 (proj2 (proj2 (end_session_recap_or_none mute_service client7 world0 eq_refl)))
             200 [] eq_refl eq_refl).
Defined.

(** X11.  When the probe is answered and the create call succeeds with a
    JSON object that has a [session_id], [start_session] returns [True]
    after exactly those two requests; the identity is the supplied campaign
    and world with the session id the service chose, whatever value that
    is. *)
Theorem start_session_takes_service_id remote cid wid c w status d sid :
  answer remote w (probe c) <> ConnError ->
  answer remote (after_call remote w (probe c)) (start_request c cid)
    = Response status (Some (PDict d)) ->
  http_error status = false ->
  assoc "session_id" d = Some sid ->
  start_session remote cid wid c w =
    (Ret true,
     mkClient (PInt cid) (PInt wid) sid (server_url c) (api_key c),
     after_call remote (after_call remote w (probe c)) (start_request c cid)).
Proof.
  intros Hup Hr He Hd. unfold start_session, bind at 1.
  rewrite (reachable_or_wait_up remote c w Hup). cbn [negb].
  revert Hr. unfold answer, start_request.
  unfold bind at 1 2, set_campaign_id, set_world_id.
  unfold try_request, bind at 1. unfold requests_post, send. cbn.
  intros Hr. rewrite Hr.
  unfold bind at 1. unfold raise_for_status. cbn [status_code]. rewrite He.
  unfold ret, bind at 1. unfold json. cbn [body].
  unfold ret, bind, lift, py_subscript, set_session_id. rewrite Hd. reflexivity.
Qed.

Lemma start_session_takes_service_id_witness :
  client_of (start_session creating_service 3 4 client0 world0)
    = mkClient (PInt 3) (PInt 4) (PInt 12) DEFAULT_SERVER_URL "secret".
Proof.
  rewrite (start_session_takes_service_id creating_service 3 4 client0 world0
             201 [("session_id", PInt 12)] (PInt 12)).
  - reflexivity.
  - cbv. discriminate.
  - reflexivity.
  - reflexivity.
  - reflexivity.
Defined.

(** X12.  When the create call succeeds with a JSON object that has no
    [session_id], [start_session] does not return: the [KeyError] of the
    lookup escapes it, after the campaign and world ids were assigned and
    with the session id as it was. *)
Theorem start_session_raises_without_session_id remote cid wid c w status d :
  answer remote w (probe c) <> ConnError ->
  answer remote (after_call remote w (probe c)) (start_request c cid)
    = Response status (Some (PDict d)) ->
  http_error status = false ->
  assoc "session_id" d = None ->
  start_session remote cid wid c w =
    (Raise (KeyError "session_id"),
     mkClient (PInt cid) (PInt wid) (session_id c) (server_url c) (api_key c),
     after_call remote (after_call remote w (probe c)) (start_request c cid)).
Proof.
  intros Hup Hr He Hd. unfold start_session, bind at 1.
  rewrite (reachable_or_wait_up remote c w Hup). cbn [negb].
  revert Hr. unfold answer, start_request.
  unfold bind at 1 2, set_campaign_id, set_world_id.
  unfold try_request, bind at 1. unfold requests_post, send. cbn.
  intros Hr. rewrite Hr.
  unfold bind at 1. unfold raise_for_status. cbn [status_code]. rewrite He.
  unfold ret, bind at 1. unfold json. cbn [body].
  unfold ret, bind, lift, py_subscript, set_session_id. rewrite Hd. reflexivity.
Qed.

Lemma start_session_raises_without_session_id_witness :
  result_of (start_session mute_service 3 4 client0 world0) = Raise (KeyError "session_id") /\
  client_of (start_session mute_service 3 4 client0 world0)
    = mkClient (PInt 3) (PInt 4) PNone DEFAULT_SERVER_URL "secret".
Proof.
  rewrite (start_session_raises_without_session_id mute_service 3 4 client0 world0 200 []).
  - split; reflexivity.
  - cbv. discriminate.
  - reflexivity.
  - reflexivity.
  - reflexivity.
Defined.

(** ** Every way out of the chat *)



(** ** Exit words *)

Lemma lstrip_padding l s : all_space l = true -> lstrip (l ++ s) = lstrip s.
Proof.
  induction l as [| a l IH]; cbn; [reflexivity |].
  intros H. apply andb_prop in H as [Ha Hl]. rewrite Ha. auto.
Qed.

Lemma rstrip_all_space r : all_space r = true -> rstrip r = "".
Proof.
  induction r as [| a r IH]; cbn; [reflexivity |].
  intros H. apply andb_prop in H as [Ha Hr]. rewrite (IH Hr), Ha. reflexivity.
Qed.

Lemma rstrip_padding s r : all_space r = true -> rstrip (s ++ r) = rstrip s.
Proof.
  intros H. induction s as [| a s IH]; cbn.
  - apply rstrip_all_space. exact H.
  - rewrite IH. reflexivity.
Qed.

Lemma exit_word_padded l tok r :
  all_space l = true -> all_space r = true ->
  lower tok = "quit" \/ lower tok = "exit" ->
  in_exit_words (lower (strip (l ++ tok ++ r))) = true.
Proof.
  intros Hl Hr H.
  assert (E : strip (l ++ tok ++ r) = strip tok).
  { unfold strip. rewrite (lstrip_padding l (tok ++ r) Hl).
    destruct tok as [| c1 tok]; [destruct H as [H | H]; discriminate H |].
    assert (E1 : is_space c1 = false).
    { rewrite <- (is_space_lower c1).
      destruct H as [H | H]; cbn [lower] in H; injection H as -> _; reflexivity. }
    change (String c1 tok ++ r)%string with (String c1 (tok ++ r)).
    cbn [lstrip]. rewrite E1.
    change (String c1 (tok ++ r)) with (String c1 tok ++ r)%string.
    apply rstrip_padding. exact Hr. }
  rewrite E. apply exit_word_recognised. exact H.
Qed.

(** X14.  The exit test ignores white space around the word and the case of
    its letters: a line that is quit or exit with blanks, tabs or line ends
    before and after it ends the loop at the prompt, with no request sent
    and nothing printed. *)
Theorem chat_exit_ignores_padding remote l tok r rest c w :
  all_space l = true -> all_space r = true ->
  lower tok = "quit" \/ lower tok = "exit" ->
  chat_loop remote (Line (l ++ tok ++ r) :: rest) c w = (Ret rest, c, prompted w).
Proof.
  intros Hl Hr H. cbn [chat_loop]. unfold bind, prompt.
  rewrite (exit_word_padded l tok r Hl Hr H). reflexivity.
Qed.

Lemma chat_exit_ignores_padding_witness :
  chat_loop narrator_service [Line "  Exit  "; Line "north"] client7 world0
    = (Ret [Line "north"], client7, prompted world0).
Proof.
  exact (chat_exit_ignores_padding narrator_service "  " "Exit" "  " [Line "north"]
           client7 world0 eq_refl eq_refl (or_intror eq_refl)).
Defined.

(** ** The credential *)

Lemma sealed_refl c w : sealed c w c w.
Proof.
  split; [reflexivity |]. split; [reflexivity |].
  exists []. rewrite app_nil_r. split; [reflexivity | constructor].
Qed.

Lemma sealed_trans c1 w1 c2 w2 c3 w3 :
  sealed c1 w1 c2 w2 -> sealed c2 w2 c3 w3 -> sealed c1 w1 c3 w3.
Proof.
  intros [U1 [K1 [m1 [E1 F1]]]] [U2 [K2 [m2 [E2 F2]]]].
  split; [congruence |]. split; [congruence |].
  exists (m1 ++ m2)%list. split.
  - rewrite E2, E1, app_assoc. reflexivity.
  - apply Forall_app. split; [exact F1 |].
    eapply Forall_impl; [| exact F2].
    intros rq [A B]. split; congruence.
Qed.

Lemma sealed_same_calls c w c' w' :
  server_url c' = server_url c -> api_key c' = api_key c -> calls w' = calls w ->
  sealed c w c' w'.
Proof.
  intros U K E. split; [exact U |]. split; [exact K |].
  exists []. rewrite app_nil_r. split; [exact E | constructor].
Qed.

Lemma sealed_net c w v p js d :
  sealed c w c (mkWorld (now w + d)
                  (calls w ++ [mkRequest v (server_url c) p js (api_key c)])
                  (out w) (ended w)).
Proof.
  split; [reflexivity |]. split; [reflexivity |].
  eexists. split; [reflexivity |]. constructor; [split; reflexivity | constructor].
Qed.

(** X15.  Over any sequence of calls the address and the key given at
    construction never change, the log of requests only grows, and every
    request sent is addressed to that address and carries that key. *)
Theorem every_request_carries_the_key remote os c w :
  server_url (fst (run_ops remote os c w)) = server_url c /\
  api_key (fst (run_ops remote os c w)) = api_key c /\
  exists more,
    calls (snd (run_ops remote os c w)) = (calls w ++ more)%list /\
    Forall (carries c) more.
Proof.
  apply (respects_run_ops remote sealed).
  - exact sealed_refl.
  - exact sealed_trans.
  - intros c0 w0 o. apply sealed_same_calls; reflexivity.
  - intros c0 w0 d _. apply sealed_same_calls; reflexivity.
  - intros c0 w0 v p js d _. apply sealed_net.
  - intros c0 w0 ca wo se. apply sealed_same_calls; reflexivity.
  - intros c0 w0. apply sealed_same_calls; reflexivity.
Qed.

(** ** Resuming, then talking *)

(** X16.  After a [load_session] that found the service up, a
    [send_message] posts to the interact path of exactly the session id the
    caller supplied, with the supplied campaign and world ids in the body,
    provided none of the three is zero; a session id of zero makes it
    return [None] without a request. *)
Theorem send_message_after_load_session remote sid cid wid s c w :
  answer remote w (probe c) <> ConnError ->
  cid <> 0 -> wid <> 0 ->
  if sid =? 0
  then send_message remote s (client_of (load_session remote sid cid wid c w))
                             (world_of (load_session remote sid cid wid c w))
       = (Ret PNone, client_of (load_session remote sid cid wid c w),
          mkWorld (now (after_call remote w (probe c)))
                  (calls w ++ [probe c])
                  (out w ++ [Print [Txt "Session not initialized!"]]) (ended w))
  else exists more,
       calls (world_of (send_message remote s
                          (client_of (load_session remote sid cid wid c w))
                          (world_of (load_session remote sid cid wid c w))))
       = (calls w ++ probe c
            :: mkRequest POST (server_url c) (SessionInteract (PInt sid))
                 (Some (PDict [("user_input", PStr s);
                               ("campaign_id", PInt cid);
                               ("world_id", PInt wid)]))
                 (api_key c)
            :: more)%list.
Proof.
  intros Hup Hc Hw.
  assert (E : load_session remote sid cid wid c w =
              (Ret true,
               mkClient (PInt cid) (PInt wid) (PInt sid) (server_url c) (api_key c),
               after_call remote w (probe c))).
  { unfold load_session, bind at 1.
    rewrite (reachable_or_wait_up remote c w Hup). reflexivity. }
  rewrite E. unfold client_of, world_of. cbn [fst snd].
  destruct (Z.eqb_spec sid 0) as [-> | Hs].
  - rewrite send_message_rejected; [reflexivity |].
    cbn. rewrite !andb_false_r. reflexivity.
  - match goal with
    | |- context [send_message remote s ?c1 ?w1] =>
        destruct (send_message_sends_when_active remote c1 w1 s) as [more Hm]
    end.
    { unfold active. cbn.
      rewrite (proj2 (Z.eqb_neq cid 0) Hc), (proj2 (Z.eqb_neq wid 0) Hw),
        (proj2 (Z.eqb_neq sid 0) Hs). reflexivity. }
    exists more. unfold world_of in Hm. rewrite Hm. cbn. rewrite <- app_assoc. reflexivity.
Qed.

Lemma send_message_after_load_session_witness :
  calls (world_of (send_message narrator_service "hi"
                     (client_of (load_session narrator_service 0 1 1 client0 world0))
                     (world_of (load_session narrator_service 0 1 1 client0 world0))))
    = [probe client0].
Proof.
  assert (Hup : answer narrator_service world0 (probe client0) <> ConnError)
    by (cbv; discriminate).
  assert (H1 : 1 <> 0) by discriminate.
  pose proof (send_message_after_load_session narrator_service 0 1 1 "hi"
                client0 world0 Hup H1 H1) as E.
  cbn [Z.eqb] in E. rewrite E. reflexivity.
Defined.
